(** * smart_importer: machine-learning helpers

    A shallow embedding of [smart_importer/machinelearning_helpers.py] and the
    properties of its helper functions and field extractors.

    Python objects that the module mutates in place (the [meta] dictionary of
    a transaction and its [postings] list) live in a store and are referred to
    by their identity, so that two references to one object see the same
    contents.  Immutable values (named tuples, strings, the lists built by the
    module itself) are plain values.  Exceptions are an explicit result
    type. *)

From Stdlib Require Import ZArith Ascii String List Lia.
From stdpp Require Import base option list strings gmap fin_maps.

Local Open Scope string_scope.
Local Open Scope list_scope.
Local Open Scope nat_scope.

(** ** Exceptions and results *)

Inductive exn : Type :=
| StopIteration
| TypeError
| AttributeError
| IndexError
| LoaderError.

Inductive result (A : Type) : Type :=
| Ok (a : A)
| Raise (e : exn).

Arguments Ok {A} a.
Arguments Raise {A} e.

(** Sequencing: an exception raised by the first computation ends the
    whole one.  This gives [result] the notation [x ← r; k]. *)
#[global] Instance result_bind : MBind result := λ A B k r,
  match r with
  | Ok a => k a
  | Raise e => Raise e
  end.

#[global] Instance result_ret : MRet result := @Ok.

(** A list comprehension [[f(d) for d in data]]: the elements are computed
    from left to right and the first exception ends the comprehension. *)
Fixpoint comprehension {A B : Type} (f : A → result B) (data : list A)
  : result (list B) :=
  match data with
  | [] => Ok []
  | d :: data' =>
      y ← f d;
      ys ← comprehension f data';
      Ok (y :: ys)
  end.

(** ** Data model *)

(** Scalar Python values: what a [meta] dictionary holds and what the field
    extractors return. *)
Inductive PyVal : Type :=
| VNone
| VStr (s : string)
| VInt (z : Z).

(** Identity of a mutable object. *)
Definition loc : Type := positive.
Bind Scope positive_scope with loc.

Record Date : Type := { year : Z; month : Z; day : Z }.

Record Amount : Type := { number : Z; currency : string }.

(** [beancount.core.data.Posting(account, units, cost, price, flag, meta)]. *)
Record Posting : Type := {
  account : string;
  units : option Amount;
  cost : option Amount;
  price : option Amount;
  flag : option string;
  posting_meta : option loc
}.

(** [beancount.core.data.Transaction]; [meta] and [postings] are references
    to a dictionary and to a list in the store. *)
Record Transaction : Type := {
  meta : loc;
  date : Date;
  txn_flag : string;
  payee : option string;
  narration : string;
  tags : list string;
  links : list string;
  postings : loc
}.

(** [TxnPostingAccount = NamedTuple('TxnPostingAccount',
      [('txn', Transaction), ('posting', Posting), ('account', str)])]. *)
Record TxnPostingAccount : Type := {
  txn : Transaction;
  posting : Posting;
  tpa_account : string
}.

(** The ledger entries other than transactions. *)
Inductive DirectiveKind : Type :=
| Open | Close | Commodity | Pad | Balance | Note | Event | Query
| Price | Document | Custom.

(** A dynamically typed element of a list handed to the module. *)
Inductive Obj : Type :=
| OTransaction (t : Transaction)
| OTxnPostingAccount (x : TxnPostingAccount)
| ODirective (k : DirectiveKind) (m : loc) (d : Date)
| OValue (v : PyVal).

(** [isinstance(o, Transaction)] and [isinstance(o, TxnPostingAccount)]. *)
Definition isinstance_Transaction (o : Obj) : bool :=
  match o with OTransaction _ => true | _ => false end.

Definition isinstance_TxnPostingAccount (o : Obj) : bool :=
  match o with OTxnPostingAccount _ => true | _ => false end.

(** The store: contents of the dictionaries and of the posting lists, by
    identity.  An identity the store does not list denotes an empty
    object. *)
Record Store : Type := {
  dicts : gmap loc (gmap string PyVal);
  lists : gmap loc (list Posting)
}.

Definition dict_of (σ : Store) (l : loc) : gmap string PyVal := dicts σ !!! l.
Definition list_of (σ : Store) (l : loc) : list Posting := lists σ !!! l.

Definition set_dict (σ : Store) (l : loc) (d : gmap string PyVal) : Store :=
  {| dicts := <[l := d]> (dicts σ); lists := lists σ |}.

Definition set_list (σ : Store) (l : loc) (ps : list Posting) : Store :=
  {| dicts := dicts σ; lists := <[l := ps]> (lists σ) |}.

(** Truth value of an optional string ([None] and [''] are false). *)
Definition truthy_str (s : option string) : bool :=
  match s with
  | None => false
  | Some "" => false
  | Some _ => true
  end.

(** ** merge_non_transaction_entries *)

(** [next(iterator)] on a list iterator, given by the elements it has still
    to yield. *)
Definition next (it : list Obj) : result (Obj * list Obj) :=
  match it with
  | [] => Raise StopIteration
  | x :: it' => Ok (x, it')
  end.

(** The [for] loop, with the list built so far and the iterator as state. *)
Fixpoint merge_loop (imported_entries : list Obj)
    (enhanced_transactions_iter : list Obj) (enhanced_entries : list Obj)
  : result (list Obj) :=
  match imported_entries with
  | [] => Ok enhanced_entries
  | entry :: rest =>
      if isinstance_Transaction entry then
        '(x, it') ← next enhanced_transactions_iter;
        merge_loop rest it' (enhanced_entries ++ [x])
      else
        merge_loop rest enhanced_transactions_iter (enhanced_entries ++ [entry])
  end.

Definition merge_non_transaction_entries
    (imported_entries enhanced_transactions : list Obj) : result (list Obj) :=
  merge_loop imported_entries enhanced_transactions [].

(** Number of transaction-kind entries of a list. *)
Definition txn_count (entries : list Obj) : nat :=
  length (List.filter isinstance_Transaction entries).

(** What the loop builds when the iterator does not run out: entry by
    entry, a transaction takes the next enhanced one and any other entry
    stays.  Used to state the result of the loop. *)
Fixpoint interleave (imported_entries enhanced : list Obj) : list Obj :=
  match imported_entries with
  | [] => []
  | entry :: rest =>
      if isinstance_Transaction entry then
        match enhanced with
        | x :: enhanced' => x :: interleave rest enhanced'
        | [] => []
        end
      else entry :: interleave rest enhanced
  end.

(** ** load_training_data *)

(** The first argument: absent, a list of entries, or a file name. *)
Inductive TrainingData : Type :=
| TDNone
| TDList (entries : list Obj)
| TDPath (filename : string).

(** Truth values: [None], the empty list and the empty string are false. *)
Definition truthy_training_data (training_data : TrainingData) : bool :=
  match training_data with
  | TDNone => false
  | TDList [] => false
  | TDList (_ :: _) => true
  | TDPath "" => false
  | TDPath (String _ _) => true
  end.

Definition truthy_entries (entries : option (list Obj)) : bool :=
  match entries with
  | Some (_ :: _) => true
  | _ => false
  end.

Definition of_entries (entries : option (list Obj)) : TrainingData :=
  match entries with
  | Some l => TDList l
  | None => TDNone
  end.

(** [beancount.core.data.filter_txns]: yields the entries that are
    instances of [Transaction], in order. *)
Definition filter_txns (entries : list Obj) : list Obj :=
  List.filter isinstance_Transaction entries.

(** [any(bools)]. *)
Definition any (bools : list bool) : bool := existsb id bools.

(** The condition of the comprehension,
    [any([pos.account == known_account for pos in txn.postings])]; an entry
    without a [postings] attribute raises. *)
Definition involves_account (σ : Store) (known_account : string) (entry : Obj)
  : result bool :=
  match entry with
  | OTransaction t =>
      Ok (any (map (λ pos, String.eqb (account pos) known_account)
                   (list_of σ (postings t))))
  | _ => Raise AttributeError
  end.

(** [[x for x in data if cond(x)]]. *)
Fixpoint comprehension_if {A : Type} (cond : A → result bool) (data : list A)
  : result (list A) :=
  match data with
  | [] => Ok []
  | x :: data' =>
      b ← cond x;
      xs ← comprehension_if cond data';
      Ok (if b : bool then x :: xs else xs)
  end.

Section Loader.

(** [beancount.loader.load_file], reduced to the entries it returns (the
    first component of its result); it reads the file system and is a
    parameter here. *)
Variable load_file : string → result (list Obj).

Definition load_training_data (σ : Store) (training_data : TrainingData)
    (known_account : option string) (existing_entries : option (list Obj))
  : result TrainingData :=
  training_data ←
    (if negb (truthy_training_data training_data)
        && truthy_entries existing_entries
     then Ok (of_entries existing_entries)
     else match training_data with
          | TDPath filename =>
              entries ← load_file filename; Ok (TDList entries)
          | _ => Ok training_data
          end);
  let training_data :=
    if truthy_training_data training_data then
      match training_data with
      | TDList entries => TDList (filter_txns entries)
      | TDPath _ => TDList []  (* no character is a Transaction *)
      | TDNone => TDNone
      end
    else training_data in
  if truthy_str known_account then
    let known_account := default "" known_account in
    match training_data with
    | TDNone => Raise TypeError  (* None is not iterable *)
    | TDList entries =>
        filtered ← comprehension_if (involves_account σ known_account) entries;
        Ok (TDList filtered)
    | TDPath "" => Ok (TDList [])
    | TDPath (String _ _) => Raise AttributeError
    end
  else Ok training_data.

End Loader.

(** ** add_posting_to_transaction *)

(** [Posting(account, None, None, None, None, None)]. *)
Definition empty_posting (acc : string) : Posting :=
  {| account := acc; units := None; cost := None; price := None;
     flag := None; posting_meta := None |}.

(** The list [transaction.postings] is appended to in place; the value
    returned is the transaction that was passed in. *)
Definition add_posting_to_transaction (σ : Store) (transaction : Transaction)
    (acc : string) : Store * Transaction :=
  if negb (length (list_of σ (postings transaction)) =? 1)%nat then
    (σ, transaction)
  else
    let additional_posting := empty_posting acc in
    (set_list σ (postings transaction)
       (list_of σ (postings transaction) ++ [additional_posting]),
     transaction).

(** ** add_payee_to_transaction *)

(** [transaction._replace(payee=...)] and [transaction._replace(meta=...)]. *)
Definition replace_payee (transaction : Transaction) (p : option string)
  : Transaction :=
  {| meta := meta transaction; date := date transaction;
     txn_flag := txn_flag transaction; payee := p;
     narration := narration transaction; tags := tags transaction;
     links := links transaction; postings := postings transaction |}.

Definition replace_meta (transaction : Transaction) (m : loc) : Transaction :=
  {| meta := m; date := date transaction;
     txn_flag := txn_flag transaction; payee := payee transaction;
     narration := narration transaction; tags := tags transaction;
     links := links transaction; postings := postings transaction |}.

Definition add_payee_to_transaction (transaction : Transaction)
    (new_payee : string) (overwrite : bool) : Transaction :=
  if negb (truthy_str (payee transaction)) || overwrite then
    replace_payee transaction (Some new_payee)
  else transaction.

(** ** json.dumps and json.loads on lists of strings

    The module serialises suggestions with [json.dumps] of the Python
    standard library, and its consumers read them back with [json.loads].
    Both are outside this repository.  The model follows the library on the
    part the module uses, lists of strings: the encoder with its default
    options ([ensure_ascii=True], separators [', '] and [': ']), the decoder
    in its strict mode.

    A Python string is a sequence of code points, from 0 to 0x10FFFF, the
    surrogates (0xD800 to 0xDFFF) among them.  The text that the encoder
    writes is ASCII, and is kept as a string of characters. *)

Definition pystr : Type := list N.

(** The Python string with the characters of [s]. *)
Definition str (s : string) : pystr := map N_of_ascii (list_ascii_of_string s).

(** The code points of a Python string are below 0x110000. *)
Definition is_str (s : pystr) : bool := forallb (λ c, c <? 0x110000)%N s.

Definition dquote : ascii := "034"%char.
Definition backslash : ascii := "\"%char.

(** One lower-case hexadecimal digit, for [n < 16]. *)
Definition hex_digit (n : N) : ascii :=
  ascii_of_N (if (n <? 10)%N then 48 + n else 87 + n).

(** ['{0:04x}'.format(n)], for [n < 0x10000]. *)
Definition hex4 (n : N) : string :=
  String (hex_digit (n / 4096 mod 16))
    (String (hex_digit (n / 256 mod 16))
       (String (hex_digit (n / 16 mod 16))
          (String (hex_digit (n mod 16)) ""))).

(** [ESCAPE_ASCII], [ESCAPE_DCT] and [replace] of [json.encoder]: the quote
    and the backslash are escaped, the printable ASCII characters stand for
    themselves, and every other code point is written as a short escape, as
    [\uxxxx], or above 0xFFFF as the two escapes of a surrogate pair. *)
Definition escape_char (n : N) : string :=
  if (n =? 34)%N then String backslash (String dquote "")
  else if (n =? 92)%N then String backslash (String backslash "")
  else if (32 <=? n)%N && (n <=? 126)%N then String (ascii_of_N n) ""
  else if (n =? 8)%N then "\b"
  else if (n =? 12)%N then "\f"
  else if (n =? 10)%N then "\n"
  else if (n =? 13)%N then "\r"
  else if (n =? 9)%N then "\t"
  else if (n <? 0x10000)%N then "\u" +:+ hex4 n
  else
    let n := (n - 0x10000)%N in
    let s1 := N.lor 0xd800 (N.land (N.shiftr n 10) 0x3ff) in
    let s2 := N.lor 0xdc00 (N.land n 0x3ff) in
    "\u" +:+ hex4 s1 +:+ "\u" +:+ hex4 s2.

Fixpoint escape (s : pystr) : string :=
  match s with
  | [] => ""
  | c :: s' => escape_char c +:+ escape s'
  end.

(** [encode_basestring_ascii]. *)
Definition encode_basestring_ascii (s : pystr) : string :=
  String dquote (escape s +:+ String dquote "").

(** The items of a list, the first one after [buf] and the others after the
    item separator. *)
Fixpoint encode_items (buf : string) (l : list pystr) : string :=
  match l with
  | [] => ""
  | s :: l' => buf +:+ encode_basestring_ascii s +:+ encode_items ", " l'
  end.

Definition json_dumps (suggestions : list pystr) : string :=
  match suggestions with
  | [] => "[]"
  | _ => encode_items "[" suggestions +:+ "]"
  end.

(** [WHITESPACE] of [json.decoder]: space, tab, line feed, carriage return. *)
Definition is_whitespace (c : ascii) : bool :=
  let n := N_of_ascii c in
  (n =? 32)%N || (n =? 9)%N || (n =? 10)%N || (n =? 13)%N.

Fixpoint skip_whitespace (s : string) : string :=
  match s with
  | String c s' => if is_whitespace c then skip_whitespace s' else s
  | "" => ""
  end.

(** The value of a hexadecimal digit of either case. *)
Definition hex_value (c : ascii) : option N :=
  let n := N_of_ascii c in
  if (48 <=? n)%N && (n <=? 57)%N then Some (n - 48)%N
  else if (97 <=? n)%N && (n <=? 102)%N then Some (n - 87)%N
  else if (65 <=? n)%N && (n <=? 70)%N then Some (n - 55)%N
  else None.

(** [_decode_uXXXX]: the number written by four hexadecimal digits. *)
Definition decode_uXXXX (h1 h2 h3 h4 : ascii) : option N :=
  match hex_value h1, hex_value h2, hex_value h3, hex_value h4 with
  | Some a, Some b, Some c, Some d =>
      Some (((a * 16 + b) * 16 + c) * 16 + d)%N
  | _, _, _, _ => None
  end.

(** The two halves of a surrogate pair, and the code point they stand
    for. *)
Definition is_high_surrogate (uni : N) : bool :=
  (0xd800 <=? uni)%N && (uni <=? 0xdbff)%N.

Definition is_low_surrogate (uni : N) : bool :=
  (0xdc00 <=? uni)%N && (uni <=? 0xdfff)%N.

Definition join_surrogates (uni uni2 : N) : N :=
  (0x10000 + N.lor (N.shiftl (uni - 0xd800) 10) (uni2 - 0xdc00))%N.

(** [BACKSLASH] of [json.decoder]: the code point of a short escape. *)
Definition unescape (esc : ascii) : option N :=
  let n := N_of_ascii esc in
  if (n =? 34)%N then Some 34%N
  else if (n =? 92)%N then Some 92%N
  else if (n =? 47)%N then Some 47%N
  else if (n =? 98)%N then Some 8%N
  else if (n =? 102)%N then Some 12%N
  else if (n =? 110)%N then Some 10%N
  else if (n =? 114)%N then Some 13%N
  else if (n =? 116)%N then Some 9%N
  else None.

(** [scanstring], from the character after the opening quote: the decoded
    string and the text after the closing quote.  [None] is a
    [JSONDecodeError]: a string with no end, a control character, or a
    wrong escape.  After the escape of a high surrogate a second [\u] escape
    is read ahead: when it is a low surrogate the two are joined into one
    code point, and otherwise the first stands alone and the second is read
    again as an escape of its own. *)
Fixpoint scanstring (s : string) : option (pystr * string) :=
  match s with
  | "" => None
  | String c s1 =>
      if Ascii.eqb c dquote then Some ([], s1)
      else if Ascii.eqb c backslash then
        match s1 with
        | "" => None
        | String esc s2 =>
            if Ascii.eqb esc "u" then
              match s2 with
              | String h1 (String h2 (String h3 (String h4 s3))) =>
                  match decode_uXXXX h1 h2 h3 h4 with
                  | None => None
                  | Some uni =>
                      if is_high_surrogate uni then
                        match s3 with
                        | String b (String u s4) =>
                            if Ascii.eqb b backslash && Ascii.eqb u "u" then
                              match s4 with
                              | String g1 (String g2 (String g3 (String g4 s5))) =>
                                  match decode_uXXXX g1 g2 g3 g4 with
                                  | None => None
                                  | Some uni2 =>
                                      if is_low_surrogate uni2 then
                                        '(chunks, rest) ← scanstring s5;
                                        Some (join_surrogates uni uni2 :: chunks,
                                              rest)
                                      else
                                        '(chunks, rest) ← scanstring s3;
                                        Some (uni :: chunks, rest)
                                  end
                              | _ => None
                              end
                            else
                              '(chunks, rest) ← scanstring s3;
                              Some (uni :: chunks, rest)
                        | _ =>
                            '(chunks, rest) ← scanstring s3;
                            Some (uni :: chunks, rest)
                        end
                      else
                        '(chunks, rest) ← scanstring s3;
                        Some (uni :: chunks, rest)
                  end
              | _ => None
              end
            else
              match unescape esc with
              | Some char =>
                  '(chunks, rest) ← scanstring s2; Some (char :: chunks, rest)
              | None => None
              end
        end
      else if (N_of_ascii c <? 32)%N then None
      else '(chunks, rest) ← scanstring s1; Some (N_of_ascii c :: chunks, rest)
  end.

(** The loop of [JSONArray], at the start of a value, with the values read
    so far.  It goes round once for each value, so the length of the text is
    fuel enough. *)
Fixpoint JSONArray_loop (fuel : nat) (s : string) (values : list pystr)
  : option (list pystr * string) :=
  match fuel with
  | O => None
  | S fuel' =>
      match s with
      | "" => None
      | String c s1 =>
          if Ascii.eqb c dquote then
            '(value, s2) ← scanstring s1;
            let values := values ++ [value] in
            match skip_whitespace s2 with
            | "" => None
            | String nextchar s3 =>
                if Ascii.eqb nextchar "]" then Some (values, s3)
                else if Ascii.eqb nextchar "," then
                  JSONArray_loop fuel' (skip_whitespace s3) values
                else None
            end
          else None
      end
  end.

(** [JSONArray], from the character after the opening bracket. *)
Definition JSONArray (s : string) : option (list pystr * string) :=
  match skip_whitespace s with
  | "" => None
  | String nextchar s1 as s0 =>
      if Ascii.eqb nextchar "]" then Some ([], s1)
      else JSONArray_loop (String.length s0) s0 []
  end.

(** [json.loads] on the texts that are a list of strings; [None] for any
    other text (a [JSONDecodeError], or a value that is no such list).  The
    characters of the text have code points from 0 to 255, which covers the
    ASCII texts that the encoder writes. *)
Definition json_loads (s : string) : option (list pystr) :=
  match skip_whitespace s with
  | "" => None
  | String c s1 =>
      if Ascii.eqb c "[" then
        '(values, rest) ← JSONArray s1;
        match skip_whitespace rest with
        | "" => Some values
        | String _ _ => None
        end
      else None
  end.

(** A string in which no high surrogate is directly followed by a low
    surrogate. *)
Fixpoint no_surrogate_pair (s : pystr) : bool :=
  match s with
  | c :: s' =>
      match s' with
      | c2 :: _ => negb (is_high_surrogate c && is_low_surrogate c2)
      | [] => true
      end && no_surrogate_pair s'
  | [] => true
  end.

(** The result of [scanstring] with one more code point in front. *)
Definition scan_cons (c : N) (r : option (pystr * string))
  : option (pystr * string) :=
  '(chunks, rest) ← r; Some (c :: chunks, rest).

(** A text at the start of which [scanstring] finds no low surrogate to
    join to a high surrogate read just before: it does not start with a
    [\u] escape, or that escape is no low surrogate. *)
Definition no_low_surrogate_ahead (s : string) : Prop :=
  match s with
  | String b (String u s4) =>
      if Ascii.eqb b backslash && Ascii.eqb u "u" then
        match s4 with
        | String g1 (String g2 (String g3 (String g4 _))) =>
            match decode_uXXXX g1 g2 g3 g4 with
            | Some uni2 => is_low_surrogate uni2 = false
            | None => False
            end
        | _ => False
        end
      else True
  | _ => True
  end.

(** The forms in which the encoder writes a code point [c]: a short
    escape, the character itself, one [\u] escape, or the two escapes of a
    surrogate pair. *)
Inductive escaped (c : N) : string → Prop :=
| escaped_short (e : ascii) :
    unescape e = Some c → Ascii.eqb e "u" = false →
    escaped c (String backslash (String e ""))
| escaped_plain :
    (32 ≤ c ≤ 126)%N → c ≠ 34%N → c ≠ 92%N →
    escaped c (String (ascii_of_N c) "")
| escaped_u :
    (c < 0x10000)%N → escaped c ("\u" +:+ hex4 c)
| escaped_pair (n : N) :
    (n < 0x100000)%N → c = (0x10000 + n)%N →
    escaped c ("\u" +:+ hex4 (0xd800 + n / 1024)%N
               +:+ "\u" +:+ hex4 (0xdc00 + n mod 1024)%N).


(** ** Suggestions in the metadata *)

Definition METADATA_KEY_SUGGESTED_ACCOUNTS : string := "__suggested_accounts__".
Definition METADATA_KEY_SUGGESTED_PAYEES : string := "__suggested_payees__".

(** [meta = transaction.meta] takes a reference to the dictionary of the
    transaction, [meta[key] = ...] writes into that dictionary, and
    [_replace(meta=meta)] builds a transaction that refers to the same
    dictionary. *)
Definition _add_suggestions_to_transaction (σ : Store)
    (transaction : Transaction) (suggestions : list pystr) (key : string)
  : Store * Transaction :=
  let meta_ref := meta transaction in
  let σ := set_dict σ meta_ref
             (<[key := VStr (json_dumps suggestions)]> (dict_of σ meta_ref)) in
  let transaction := replace_meta transaction meta_ref in
  (σ, transaction).

Definition add_suggested_accounts_to_transaction (σ : Store)
    (transaction : Transaction) (suggestions : list pystr)
  : Store * Transaction :=
  _add_suggestions_to_transaction σ transaction suggestions
    METADATA_KEY_SUGGESTED_ACCOUNTS.

Definition add_suggested_payees_to_transaction (σ : Store)
    (transaction : Transaction) (suggestions : list pystr)
  : Store * Transaction :=
  _add_suggestions_to_transaction σ transaction suggestions
    METADATA_KEY_SUGGESTED_PAYEES.

(** [transaction.meta[key]] as a consumer reads it. *)
Definition meta_lookup (σ : Store) (transaction : Transaction) (key : string)
  : option PyVal :=
  dict_of σ (meta transaction) !! key.

(** ** Field extractors *)

(** [s or ''] on an optional string. *)
Definition or_empty (s : option string) : string :=
  if truthy_str s then default "" s else "".

(** [l[-1]] and [l[0]]. *)
Definition index_last {A : Type} (l : list A) : result A :=
  match last l with
  | Some x => Ok x
  | None => Raise IndexError
  end.

Definition index_first {A : Type} (l : list A) : result A :=
  match l with
  | x :: _ => Ok x
  | [] => Raise IndexError
  end.

Module NoFitMixin.
Definition fit {T X Y : Type} (self : T) (x : X) (y : Y) : T := self.
End NoFitMixin.

(** In each class a method that matches neither [isinstance] test falls off
    its end and returns [None]. *)
Module GetPayee.
Definition _get_payee (d : Obj) : result PyVal :=
  match d with
  | OTransaction t => Ok (VStr (or_empty (payee t)))
  | OTxnPostingAccount x => Ok (VStr (or_empty (payee (txn x))))
  | _ => Ok VNone
  end.

Definition transform (data : list Obj) : result (list PyVal) :=
  comprehension _get_payee data.
End GetPayee.

Module GetNarration.
Definition _get_narration (d : Obj) : result PyVal :=
  match d with
  | OTransaction t => Ok (VStr (narration t))
  | OTxnPostingAccount x => Ok (VStr (narration (txn x)))
  | _ => Ok VNone
  end.

Definition transform (data : list Obj) : result (list PyVal) :=
  comprehension _get_narration data.
End GetNarration.

Module GetPostingAccount.
Definition _get_posting_account (σ : Store) (d : Obj) : result PyVal :=
  match d with
  | OTransaction t =>
      p ← index_last (list_of σ (postings t)); Ok (VStr (account p))
  | OTxnPostingAccount x => Ok (VStr (account (posting x)))
  | _ => Ok VNone
  end.

Definition transform (σ : Store) (data : list Obj) : result (list PyVal) :=
  comprehension (_get_posting_account σ) data.
End GetPostingAccount.

Module GetReferencePostingAccount.
Definition _get_posting_account (σ : Store) (d : Obj) : result PyVal :=
  match d with
  | OTransaction t =>
      p ← index_first (list_of σ (postings t)); Ok (VStr (account p))
  | OTxnPostingAccount x => Ok (VStr (tpa_account x))
  | _ => Ok VNone
  end.

Definition transform (σ : Store) (data : list Obj) : result (list PyVal) :=
  comprehension (_get_posting_account σ) data.
End GetReferencePostingAccount.

Module GetDayOfMonth.
Definition _get_day_of_month (d : Obj) : result PyVal :=
  match d with
  | OTransaction t => Ok (VInt (day (date t)))
  | OTxnPostingAccount x => Ok (VInt (day (date (txn x))))
  | _ => Ok VNone
  end.

Definition transform (data : list Obj) : result (list PyVal) :=
  comprehension _get_day_of_month data.
End GetDayOfMonth.

(** ** Reference definitions for the statements *)

(** Whether an entry is a transaction with a posting on account [a]. *)
Definition has_posting_on (σ : Store) (a : string) (entry : Obj) : bool :=
  match entry with
  | OTransaction t =>
      existsb (λ pos, String.eqb (account pos) a) (list_of σ (postings t))
  | _ => false
  end.

(** What the loader is to return from a source list: its transactions, and
    under an account filter that is not the empty string, those of them with
    a posting on that account. *)
Definition filtered_training_data (σ : Store) (known_account : option string)
    (entries : list Obj) : list Obj :=
  match known_account with
  | Some (String _ _ as a) =>
      List.filter (has_posting_on σ a) (filter_txns entries)
  | _ => filter_txns entries
  end.

(** A result [r] is the element-wise projection of [data] by [f]: a list of
    the same length whose element at each position is [f] of the input at
    that position. *)
Definition elementwise {A B : Type} (f : A → result B) (data : list A)
    (r : result (list B)) : Prop :=
  ∃ out, r = Ok out
    ∧ length out = length data
    ∧ ∀ i d, data !! i = Some d → ∃ v, out !! i = Some v ∧ f d = Ok v.

(** ** A sample ledger *)

Definition sample_date : Date := {| year := 2024%Z; month := 3%Z; day := 15%Z |}.

Definition posting_A : Posting :=
  {| account := "Assets:Checking";
     units := Some {| number := (-50)%Z; currency := "CHF" |};
     cost := None; price := None; flag := None; posting_meta := None |}.

Definition posting_B : Posting :=
  {| account := "Expenses:Food";
     units := Some {| number := 50%Z; currency := "CHF" |};
     cost := None; price := None; flag := None; posting_meta := None |}.

Definition sample_txn (m ps : loc) (p : option string) (n : string)
  : Transaction :=
  {| meta := m; date := sample_date; txn_flag := "*"; payee := p;
     narration := n; tags := []; links := []; postings := ps |}.

(** Three transactions: one posting and no payee; two postings and a payee;
    no posting and the empty string as payee. *)
Definition txn_one_posting : Transaction := sample_txn 1 2 None "Groceries".
Definition txn_two_postings : Transaction :=
  sample_txn 3 4 (Some "Landlord") "Rent".
Definition txn_no_posting : Transaction := sample_txn 5 6 (Some "") "Memo".

Definition sample_store : Store :=
  {| dicts := {[ 1%positive := ∅;
                 3%positive := {[ "lineno" := VInt 12%Z ]};
                 5%positive := ∅ ]};
     lists := {[ 2%positive := [posting_A];
                 4%positive := [posting_A; posting_B];
                 6%positive := [] ]} |}.

Definition sample_entries : list Obj :=
  [ODirective Open 7 sample_date; OTransaction txn_one_posting;
   ODirective Note 8 sample_date; OTransaction txn_two_postings].

Definition sample_enhanced : list Obj :=
  [OTransaction (replace_payee txn_one_posting (Some "Migros"));
   OTransaction txn_two_postings].

(** A loader for a file system without ledger files. *)
Definition no_files : string → result (list Obj) := λ _, Raise LoaderError.

(** ** More reference definitions and samples *)

(** An entry that is not a transaction. *)
Definition not_Transaction (o : Obj) : bool := negb (isinstance_Transaction o).

(** A list of entries with [f] applied to its transactions. *)
Definition map_txns (f : Obj → Obj) (entries : list Obj) : list Obj :=
  map (λ e, if isinstance_Transaction e then f e else e) entries.



(** The last posting of [txn_two_postings] with the account of its first
    one, as the triple built for one posting of a transaction. *)
Definition sample_tpa : TxnPostingAccount :=
  {| txn := txn_two_postings; posting := posting_B;
     tpa_account := "Assets:Checking" |}.

(** A loader that finds the sample ledger under one name only. *)
Definition one_file : string → result (list Obj) := λ filename,
  if String.eqb filename "ledger.beancount" then Ok sample_entries
  else Raise LoaderError.

(** * Properties *)

(** ** merge_non_transaction_entries *)

Section Merge.

Implicit Types imported enhanced acc : list Obj.

Lemma txn_count_cons entry imported :
  txn_count (entry :: imported) =
    (if isinstance_Transaction entry then S (txn_count imported)
     else txn_count imported).
Proof. unfold txn_count. cbn. by destruct (isinstance_Transaction entry). Qed.

(** The loop against its closed form, for any list built so far. *)
Lemma merge_loop_enough imported : ∀ enhanced acc,
  txn_count imported ≤ length enhanced →
  merge_loop imported enhanced acc = Ok (acc ++ interleave imported enhanced).
Proof.
  induction imported as [|entry rest IH]; intros enhanced acc Hlen.
  - cbn. by rewrite app_nil_r.
  - rewrite txn_count_cons in Hlen. cbn [merge_loop interleave].
    destruct (isinstance_Transaction entry).
    + destruct enhanced as [|x enhanced']; cbn in Hlen; [lia|].
      cbn. rewrite IH by lia. by rewrite <- app_assoc.
    + rewrite IH by lia. by rewrite <- app_assoc.
Qed.

Lemma merge_loop_exhausted imported : ∀ enhanced acc,
  length enhanced < txn_count imported →
  merge_loop imported enhanced acc = Raise StopIteration.
Proof.
  induction imported as [|entry rest IH]; intros enhanced acc Hlen.
  - cbn in Hlen. lia.
  - rewrite txn_count_cons in Hlen. cbn [merge_loop].
    destruct (isinstance_Transaction entry).
    + destruct enhanced as [|x enhanced']; [done|].
      cbn in Hlen. cbn. apply IH. lia.
    + by apply IH.
Qed.

Lemma interleave_length imported : ∀ enhanced,
  txn_count imported ≤ length enhanced →
  length (interleave imported enhanced) = length imported.
Proof.
  induction imported as [|entry rest IH]; intros enhanced Hlen; [done|].
  rewrite txn_count_cons in Hlen. cbn [interleave].
  destruct (isinstance_Transaction entry).
  - destruct enhanced as [|x enhanced']; cbn in Hlen; [lia|].
    cbn. rewrite IH; [done | lia].
  - cbn. rewrite IH; [done | lia].
Qed.

(** Position [i] of the result holds the original entry, or the enhanced
    transaction whose rank is the number of transactions before [i]. *)
Lemma interleave_lookup imported : ∀ enhanced i entry,
  txn_count imported ≤ length enhanced →
  imported !! i = Some entry →
  interleave imported enhanced !! i =
    (if isinstance_Transaction entry
     then enhanced !! txn_count (take i imported)
     else Some entry).
Proof.
  induction imported as [|e rest IH]; intros enhanced i entry Hlen Hi; [done|].
  rewrite txn_count_cons in Hlen.
  destruct i as [|i]; cbn in Hi.
  - injection Hi as ->. cbn [interleave take].
    destruct (isinstance_Transaction entry) eqn:He; [|done].
    destruct enhanced as [|x enhanced']; cbn in Hlen; [lia | done].
  - cbn [interleave take]. rewrite txn_count_cons.
    destruct (isinstance_Transaction e).
    + destruct enhanced as [|x enhanced']; cbn in Hlen; [lia|].
      change ((x :: interleave rest enhanced') !! S i)
        with (interleave rest enhanced' !! i).
      rewrite (IH enhanced' i entry) by (lia || done).
      by destruct (isinstance_Transaction entry).
    + change ((e :: interleave rest enhanced) !! S i)
        with (interleave rest enhanced !! i).
      by rewrite (IH enhanced i entry) by (lia || done).
Qed.

End Merge.

(** C1, as it holds: when the enhanced sequence has an element for every
    transaction of the original one, [merge_non_transaction_entries] returns a list of the
    length of the original in which, position by position, a transaction is
    replaced by the next enhanced element (the one whose rank is the number
    of transactions before that position) and any other entry is kept; on
    [Open, Txn1, Note, Txn2] and [Txn1', Txn2'] the result is
    [Open, Txn1', Note, Txn2']. *)
Theorem merge_non_transaction_entries_interleaves :
  (∀ imported enhanced : list Obj,
     txn_count imported ≤ length enhanced →
     ∃ out,
       merge_non_transaction_entries imported enhanced = Ok out
       ∧ length out = length imported
       ∧ ∀ i entry, imported !! i = Some entry →
           out !! i =
             (if isinstance_Transaction entry
              then enhanced !! txn_count (take i imported)
              else Some entry))
  ∧ (∀ txn1 txn2 txn1' txn2' m1 d1 m2 d2,
       merge_non_transaction_entries
         [ODirective Open m1 d1; OTransaction txn1;
          ODirective Note m2 d2; OTransaction txn2]
         [OTransaction txn1'; OTransaction txn2']
       = Ok [ODirective Open m1 d1; OTransaction txn1';
             ODirective Note m2 d2; OTransaction txn2']).
Proof.
  split; [|done].
  intros imported enhanced Hlen.
  exists (interleave imported enhanced). split; [|split].
  - unfold merge_non_transaction_entries. by rewrite merge_loop_enough.
  - by apply interleave_length.
  - intros i entry Hi. by apply interleave_lookup.
Qed.

Lemma merge_non_transaction_entries_interleaves_witness :
  txn_count sample_entries ≤ length sample_enhanced
  ∧ ∃ out,
      merge_non_transaction_entries sample_entries sample_enhanced = Ok out
      ∧ length out = length sample_entries
      ∧ ∀ i entry, sample_entries !! i = Some entry →
          out !! i =
            (if isinstance_Transaction entry
             then sample_enhanced !! txn_count (take i sample_entries)
             else Some entry).
Proof.
  split; [vm_compute; lia|].
  apply (proj1 merge_non_transaction_entries_interleaves).
  vm_compute; lia.
Defined.

(** C1 as stated fails: with one transaction in the original sequence and
    no enhanced transaction the call raises [StopIteration] and returns no
    sequence. *)
Lemma merge_non_transaction_entries_too_few_enhanced :
  length ([] : list Obj) < txn_count [OTransaction txn_one_posting]
  ∧ merge_non_transaction_entries [OTransaction txn_one_posting] []
    = Raise StopIteration.
Proof. split; [vm_compute; lia | reflexivity]. Qed.

(** C8, as it holds: [merge_non_transaction_entries] fails, with
    [StopIteration], exactly when the enhanced sequence has fewer elements
    than the original has transactions; with as many or more it returns a
    list of the length of the original, and the elements in surplus are never
    read. *)
Theorem merge_non_transaction_entries_exhaustion :
  ∀ imported enhanced : list Obj,
    (length enhanced < txn_count imported →
       merge_non_transaction_entries imported enhanced = Raise StopIteration)
    ∧ (txn_count imported ≤ length enhanced →
         ∃ out,
           merge_non_transaction_entries imported enhanced = Ok out
           ∧ length out = length imported
           ∧ merge_non_transaction_entries imported
               (take (txn_count imported) enhanced) = Ok out)
    ∧ (∀ e, merge_non_transaction_entries imported enhanced = Raise e →
         e = StopIteration ∧ length enhanced < txn_count imported).
Proof.
  intros imported enhanced. split; [|split].
  - intros Hlt. by apply merge_loop_exhausted.
  - intros Hle. exists (interleave imported enhanced).
    unfold merge_non_transaction_entries.
    rewrite merge_loop_enough by done.
    split; [done|]. split; [by apply interleave_length|].
    rewrite merge_loop_enough by (rewrite length_take; lia).
    cbn. f_equal. clear Hle. revert enhanced.
    induction imported as [|entry rest IH]; intros enhanced; [done|].
    rewrite txn_count_cons. cbn [interleave].
    destruct (isinstance_Transaction entry).
    + destruct enhanced as [|x enhanced']; [done|].
      cbn [take]. by rewrite IH.
    + by rewrite IH.
  - intros e He. unfold merge_non_transaction_entries in He.
    destruct (decide (length enhanced < txn_count imported)) as [Hlt|Hge].
    + rewrite merge_loop_exhausted in He by done. by injection He as <-.
    + rewrite merge_loop_enough in He by lia. discriminate.
Qed.

Lemma merge_non_transaction_entries_exhaustion_witness :
  (length [OTransaction txn_two_postings] < txn_count sample_entries
   ∧ merge_non_transaction_entries sample_entries
       [OTransaction txn_two_postings] = Raise StopIteration)
  ∧ (txn_count sample_entries ≤ length (sample_enhanced ++ sample_enhanced)
     ∧ ∃ out,
         merge_non_transaction_entries sample_entries
           (sample_enhanced ++ sample_enhanced) = Ok out
         ∧ length out = length sample_entries
         ∧ merge_non_transaction_entries sample_entries
             (take (txn_count sample_entries)
                (sample_enhanced ++ sample_enhanced)) = Ok out).
Proof.
  split.
  - assert (H : length [OTransaction txn_two_postings] < txn_count sample_entries)
      by (vm_compute; lia).
    split; [exact H|].
    exact (proj1 (merge_non_transaction_entries_exhaustion _ _) H).
  - assert (H : txn_count sample_entries
                ≤ length (sample_enhanced ++ sample_enhanced))
      by (vm_compute; lia).
    split; [exact H|].
    exact (proj1 (proj2 (merge_non_transaction_entries_exhaustion _ _)) H).
Defined.

(** C8 as stated fails: with no transaction in the original sequence and
    one enhanced transaction the lengths differ, and the call returns the
    empty list. *)
Lemma merge_non_transaction_entries_surplus_accepted :
  length [OTransaction txn_two_postings] ≠ txn_count []
  ∧ merge_non_transaction_entries [] [OTransaction txn_two_postings] = Ok [].
Proof. split; [vm_compute; lia | reflexivity]. Qed.

(** ** json.dumps and json.loads *)

Section Json.

Local Open Scope N_scope.

Lemma append_assoc (a b c : string) : (a +:+ b) +:+ c = a +:+ (b +:+ c).
Proof.
  induction a as [|x a IH]; [done|].
  change (String x ((a +:+ b) +:+ c) = String x (a +:+ (b +:+ c))).
  by rewrite IH.
Qed.

Lemma length_append (a b : string) :
  String.length (a +:+ b) = (String.length a + String.length b)%nat.
Proof.
  induction a as [|x a IH]; [done|].
  change (S (String.length (a +:+ b))
          = S (String.length a + String.length b)).
  by rewrite IH.
Qed.

(** *** Hexadecimal digits *)

Lemma hex_value_hex_digit (d : N) : d < 16 → hex_value (hex_digit d) = Some d.
Proof.
  intros Hd. unfold hex_value, hex_digit.
  destruct (N.ltb_spec d 10).
  - rewrite N_ascii_embedding by lia.
    destruct (N.leb_spec 48 (48 + d)); [|lia].
    destruct (N.leb_spec (48 + d) 57); [|lia].
    cbn. f_equal. lia.
  - rewrite N_ascii_embedding by lia.
    destruct (N.leb_spec 48 (87 + d)); [|lia].
    destruct (N.leb_spec (87 + d) 57); [lia|].
    destruct (N.leb_spec 97 (87 + d)); [|lia].
    destruct (N.leb_spec (87 + d) 102); [|lia].
    cbn. f_equal. lia.
Qed.

Lemma hex4_value (n : N) :
  n < 0x10000 →
  (((n / 4096 mod 16) * 16 + n / 256 mod 16) * 16 + n / 16 mod 16) * 16
  + n mod 16 = n.
Proof.
  intros Hn.
  assert (H3 : n / 4096 < 16) by (apply N.Div0.div_lt_upper_bound; lia).
  rewrite (N.mod_small (n / 4096)) by done.
  assert (E1 : n / 256 = n / 16 / 16)
    by (rewrite N.Div0.div_div; reflexivity).
  assert (E2 : n / 4096 = n / 16 / 16 / 16)
    by (rewrite !N.Div0.div_div; reflexivity).
  rewrite E1, E2.
  pose proof (N.div_mod' n 16) as H0.
  pose proof (N.div_mod' (n / 16) 16) as H1.
  pose proof (N.div_mod' (n / 16 / 16) 16) as H2.
  lia.
Qed.

Lemma decode_hex4 (n : N) :
  n < 0x10000 →
  decode_uXXXX (hex_digit (n / 4096 mod 16)) (hex_digit (n / 256 mod 16))
    (hex_digit (n / 16 mod 16)) (hex_digit (n mod 16)) = Some n.
Proof.
  intros Hn. unfold decode_uXXXX.
  rewrite !hex_value_hex_digit by (apply N.mod_lt; lia).
  f_equal. by apply hex4_value.
Qed.

(** *** Surrogate pairs *)

Lemma land_shifted_low (a b : N) : b < 1024 → N.land (a * 1024) b = 0.
Proof.
  intros Hb. apply N.bits_inj_0. intros i. rewrite N.land_spec.
  destruct (N.ltb_spec i 10).
  - change 1024 with (2 ^ 10). rewrite N.mul_pow2_bits_low by done. done.
  - rewrite <- (N.mod_small b (2 ^ 10)) by done.
    rewrite N.mod_pow2_bits_high by done. apply andb_false_r.
Qed.

Lemma lor_shifted_low (a b : N) : b < 1024 → N.lor (a * 1024) b = a * 1024 + b.
Proof.
  intros Hb. rewrite <- N.lxor_lor by (by apply land_shifted_low).
  symmetry. apply N.add_nocarry_lxor. by apply land_shifted_low.
Qed.

Lemma surrogate_pair (n : N) :
  n < 0x100000 →
  let s1 := N.lor 0xd800 (N.land (N.shiftr n 10) 0x3ff) in
  let s2 := N.lor 0xdc00 (N.land n 0x3ff) in
  s1 = 0xd800 + n / 1024 ∧ s2 = 0xdc00 + n mod 1024
  ∧ n / 1024 < 1024 ∧ n mod 1024 < 1024.
Proof.
  intros Hn. cbv zeta.
  assert (H1 : n / 1024 < 1024) by (apply N.Div0.div_lt_upper_bound; lia).
  assert (H2 : n mod 1024 < 1024) by (apply N.mod_lt; lia).
  change 0x3ff with (N.ones 10). rewrite !N.land_ones, N.shiftr_div_pow2.
  change (2 ^ 10) with 1024. rewrite (N.mod_small (n / 1024)) by done.
  change 0xd800 with (54 * 1024). change 0xdc00 with (55 * 1024).
  by rewrite !lor_shifted_low.
Qed.

Lemma join_surrogate_pair (n : N) :
  n < 0x100000 →
  join_surrogates (0xd800 + n / 1024) (0xdc00 + n mod 1024) = 0x10000 + n.
Proof.
  intros Hn. unfold join_surrogates.
  assert (H2 : n mod 1024 < 1024) by (apply N.mod_lt; lia).
  rewrite (N.add_comm 0xd800), (N.add_comm 0xdc00), !N.add_sub.
  rewrite N.shiftl_mul_pow2. change (2 ^ 10) with 1024.
  rewrite lor_shifted_low by done.
  pose proof (N.div_mod' n 1024). lia.
Qed.

End Json.

Section JsonScan.

Local Open Scope N_scope.

(** *** One character or escape of a string *)

Lemma scanstring_char (a : ascii) (X : string) :
  Ascii.eqb a dquote = false →
  Ascii.eqb a backslash = false →
  (N_of_ascii a <? 32) = false →
  scanstring (String a X) = scan_cons (N_of_ascii a) (scanstring X).
Proof. intros H1 H2 H3. cbn [scanstring]. by rewrite H1, H2, H3. Qed.

Lemma ascii_of_N_eqb (n : N) (c : ascii) :
  n < 256 → n ≠ N_of_ascii c → Ascii.eqb (ascii_of_N n) c = false.
Proof.
  intros Hn Hc. apply Ascii.eqb_neq. intros <-.
  by rewrite N_ascii_embedding in Hc.
Qed.

(** What follows the escape of a first code point [uni]. *)
Lemma scanstring_u (h1 h2 h3 h4 : ascii) (uni : N) (X : string) :
  decode_uXXXX h1 h2 h3 h4 = Some uni →
  scanstring (String backslash (String "u"
                (String h1 (String h2 (String h3 (String h4 X))))))
  = if is_high_surrogate uni then
      match X with
      | String b (String u s4) =>
          if Ascii.eqb b backslash && Ascii.eqb u "u" then
            match s4 with
            | String g1 (String g2 (String g3 (String g4 s5))) =>
                match decode_uXXXX g1 g2 g3 g4 with
                | None => None
                | Some uni2 =>
                    if is_low_surrogate uni2 then
                      scan_cons (join_surrogates uni uni2) (scanstring s5)
                    else scan_cons uni (scanstring X)
                end
            | _ => None
            end
          else scan_cons uni (scanstring X)
      | _ => scan_cons uni (scanstring X)
      end
    else scan_cons uni (scanstring X).
Proof.
  intros Hd.
  change (scanstring (String backslash (String "u"
            (String h1 (String h2 (String h3 (String h4 X)))))))
    with (match decode_uXXXX h1 h2 h3 h4 with
          | None => None
          | Some uni =>
              if is_high_surrogate uni then
                match X with
                | String b (String u s4) =>
                    if Ascii.eqb b backslash && Ascii.eqb u "u" then
                      match s4 with
                      | String g1 (String g2 (String g3 (String g4 s5))) =>
                          match decode_uXXXX g1 g2 g3 g4 with
                          | None => None
                          | Some uni2 =>
                              if is_low_surrogate uni2 then
                                scan_cons (join_surrogates uni uni2)
                                  (scanstring s5)
                              else scan_cons uni (scanstring X)
                          end
                      | _ => None
                      end
                    else scan_cons uni (scanstring X)
                | _ => scan_cons uni (scanstring X)
                end
              else scan_cons uni (scanstring X)
          end).
  by rewrite Hd.
Qed.

Lemma scanstring_u_single (n : N) (X : string) :
  n < 0x10000 →
  is_high_surrogate n = false ∨ no_low_surrogate_ahead X →
  scanstring ("\u" +:+ hex4 n +:+ X) = scan_cons n (scanstring X).
Proof.
  intros Hn Hsingle.
  change ("\u" +:+ hex4 n +:+ X)
    with (String backslash (String "u"
            (String (hex_digit (n / 4096 mod 16))
               (String (hex_digit (n / 256 mod 16))
                  (String (hex_digit (n / 16 mod 16))
                     (String (hex_digit (n mod 16)) X)))))).
  rewrite (scanstring_u _ _ _ _ n) by (by apply decode_hex4).
  destruct (is_high_surrogate n); [|done].
  destruct Hsingle as [?|Hahead]; [done|].
  destruct X as [|b [|u s4]]; try done. cbn in Hahead.
  destruct (Ascii.eqb b backslash && Ascii.eqb u "u"); [|done].
  destruct s4 as [|g1 [|g2 [|g3 [|g4 s5]]]]; try done.
  destruct (decode_uXXXX g1 g2 g3 g4); [|done]. by rewrite Hahead.
Qed.

Lemma scanstring_u_pair (n1 n2 : N) (X : string) :
  n1 < 0x10000 → n2 < 0x10000 →
  is_high_surrogate n1 = true → is_low_surrogate n2 = true →
  scanstring ("\u" +:+ hex4 n1 +:+ "\u" +:+ hex4 n2 +:+ X)
  = scan_cons (join_surrogates n1 n2) (scanstring X).
Proof.
  intros Hn1 Hn2 Hhigh Hlow.
  change ("\u" +:+ hex4 n1 +:+ "\u" +:+ hex4 n2 +:+ X)
    with (String backslash (String "u"
            (String (hex_digit (n1 / 4096 mod 16))
               (String (hex_digit (n1 / 256 mod 16))
                  (String (hex_digit (n1 / 16 mod 16))
                     (String (hex_digit (n1 mod 16))
                        (String backslash (String "u"
                           (String (hex_digit (n2 / 4096 mod 16))
                              (String (hex_digit (n2 / 256 mod 16))
                                 (String (hex_digit (n2 / 16 mod 16))
                                    (String (hex_digit (n2 mod 16))
                                       X)))))))))))).
  rewrite (scanstring_u _ _ _ _ n1) by (by apply decode_hex4).
  rewrite Hhigh. change (Ascii.eqb backslash backslash && Ascii.eqb "u" "u")
    with true. cbv iota.
  by rewrite decode_hex4, Hlow.
Qed.

End JsonScan.

Section JsonString.

Local Open Scope N_scope.

(** Linear arithmetic with the quotients and remainders as unknowns. *)
Local Ltac lia_div :=
  repeat match goal with
         | |- context [N.div ?a ?b] =>
             let q := fresh "q" in set (q := N.div a b) in *; clearbody q
         | |- context [N.modulo ?a ?b] =>
             let r := fresh "r" in set (r := N.modulo a b) in *; clearbody r
         end;
  lia.

Lemma escape_char_escaped (c : N) : c < 0x110000 → escaped c (escape_char c).
Proof.
  intros Hc. unfold escape_char.
  destruct (N.eqb_spec c 34) as [->|]; [by apply (escaped_short _ dquote)|].
  destruct (N.eqb_spec c 92) as [->|]; [by apply (escaped_short _ backslash)|].
  destruct (N.leb_spec 32 c), (N.leb_spec c 126); cbn [andb];
    try (by apply escaped_plain).
  all: destruct (N.eqb_spec c 8) as [->|]; [by apply (escaped_short _ "b")|].
  all: destruct (N.eqb_spec c 12) as [->|]; [by apply (escaped_short _ "f")|].
  all: destruct (N.eqb_spec c 10) as [->|]; [by apply (escaped_short _ "n")|].
  all: destruct (N.eqb_spec c 13) as [->|]; [by apply (escaped_short _ "r")|].
  all: destruct (N.eqb_spec c 9) as [->|]; [by apply (escaped_short _ "t")|].
  all: destruct (N.ltb_spec c 0x10000); [by apply escaped_u|].
  all: cbv zeta;
    assert (Hn : c - 0x10000 < 0x100000) by lia;
    pose proof (surrogate_pair (c - 0x10000) Hn) as Hsp; cbv zeta in Hsp;
    destruct Hsp as (-> & -> & _); apply escaped_pair; lia.
Qed.

(** Reading back one escaped code point.  A high surrogate must not have
    a low surrogate ahead of it. *)
Lemma scanstring_escaped (c : N) (e X : string) :
  escaped c e →
  is_high_surrogate c = false ∨ no_low_surrogate_ahead X →
  scanstring (e +:+ X) = scan_cons c (scanstring X).
Proof.
  intros He Hsingle. destruct He as [e Hun Hu| Hp H34 H92 | Hc | n Hn ->].
  - change (String backslash (String e "") +:+ X)
      with (String backslash (String e X)).
    cbn [scanstring].
    change (Ascii.eqb backslash dquote) with false.
    change (Ascii.eqb backslash backslash) with true. cbv iota.
    by rewrite Hu, Hun.
  - change (String (ascii_of_N c) "" +:+ X) with (String (ascii_of_N c) X).
    rewrite scanstring_char; rewrite ?N_ascii_embedding by lia; try done.
    + apply ascii_of_N_eqb; [lia | done].
    + apply ascii_of_N_eqb; [lia | done].
    + apply N.ltb_ge. lia.
  - rewrite append_assoc. by apply scanstring_u_single.
  - rewrite !append_assoc.
    assert (n / 1024 < 1024) by (apply N.Div0.div_lt_upper_bound; lia).
    assert (n mod 1024 < 1024) by (apply N.mod_lt; lia).
    rewrite scanstring_u_pair, join_surrogate_pair; try done; try lia_div.
    + unfold is_high_surrogate.
      apply andb_true_iff. split; apply N.leb_le; lia_div.
    + unfold is_low_surrogate.
      apply andb_true_iff. split; apply N.leb_le; lia_div.
Qed.

(** After an escaped code point that is no low surrogate, and at the end
    of the string, there is no low surrogate ahead. *)
Lemma no_low_surrogate_ahead_escaped (c : N) (e X : string) :
  escaped c e → is_low_surrogate c = false →
  no_low_surrogate_ahead (e +:+ X).
Proof.
  intros He Hlow. destruct He as [e Hun Hu| Hp H34 H92 | Hc | n Hn ->].
  - change (String backslash (String e "") +:+ X)
      with (String backslash (String e X)).
    cbn. by rewrite Hu.
  - change (String (ascii_of_N c) "" +:+ X) with (String (ascii_of_N c) X).
    destruct X as [|u s4]; [done|]. cbn.
    by rewrite ascii_of_N_eqb by (lia || done).
  - rewrite append_assoc.
    change ("\u" +:+ hex4 c +:+ X)
      with (String backslash (String "u"
              (String (hex_digit (c / 4096 mod 16))
                 (String (hex_digit (c / 256 mod 16))
                    (String (hex_digit (c / 16 mod 16))
                       (String (hex_digit (c mod 16)) X)))))).
    cbn [no_low_surrogate_ahead].
    change (Ascii.eqb backslash backslash && Ascii.eqb "u" "u") with true.
    cbv iota. by rewrite decode_hex4.
  - rewrite !append_assoc.
    assert (n / 1024 < 1024) by (apply N.Div0.div_lt_upper_bound; lia).
    set (h := 0xd800 + n / 1024).
    change ("\u" +:+ hex4 h +:+ "\u" +:+ hex4 (0xdc00 + n mod 1024) +:+ X)
      with (String backslash (String "u"
              (String (hex_digit (h / 4096 mod 16))
                 (String (hex_digit (h / 256 mod 16))
                    (String (hex_digit (h / 16 mod 16))
                       (String (hex_digit (h mod 16))
                          ("\u" +:+ hex4 (0xdc00 + n mod 1024) +:+ X))))))).
    cbn [no_low_surrogate_ahead].
    change (Ascii.eqb backslash backslash && Ascii.eqb "u" "u") with true.
    cbv iota. rewrite decode_hex4 by (unfold h; lia_div).
    unfold is_low_surrogate, h.
    apply andb_false_iff. left. apply N.leb_gt. lia_div.
Qed.

Lemma no_low_surrogate_ahead_dquote (rest : string) :
  no_low_surrogate_ahead (String dquote rest).
Proof. by destruct rest. Qed.

Lemma is_str_cons (c : N) (s : pystr) :
  is_str (c :: s) = true ↔ c < 0x110000 ∧ is_str s = true.
Proof.
  unfold is_str. cbn [forallb]. rewrite andb_true_iff, N.ltb_lt. done.
Qed.

(** Reading back an escaped string up to its closing quote. *)
Lemma scanstring_escape (s : pystr) (rest : string) :
  is_str s = true → no_surrogate_pair s = true →
  scanstring (escape s +:+ String dquote rest) = Some (s, rest).
Proof.
  induction s as [|c s IH]; intros Hstr Hpair; [done|].
  apply is_str_cons in Hstr as [Hc Hstr].
  cbn [no_surrogate_pair] in Hpair. apply andb_true_iff in Hpair as [Hc2 Hpair].
  cbn [escape]. rewrite append_assoc.
  rewrite (scanstring_escaped c (escape_char c)).
  - by rewrite IH.
  - by apply escape_char_escaped.
  - destruct (is_high_surrogate c) eqn:Hhigh; [right | by left].
    destruct s as [|c2 s]; [apply no_low_surrogate_ahead_dquote|].
    cbn [escape]. rewrite append_assoc.
    apply is_str_cons in Hstr as [Hc2' _].
    apply (no_low_surrogate_ahead_escaped c2).
    + by apply escape_char_escaped.
    + by destruct (is_low_surrogate c2).
Qed.

End JsonString.

Section JsonArray.

Implicit Types (s : pystr) (l values : list pystr).

Lemma encode_items_length l :
  length l ≤ String.length (encode_items ", " l).
Proof.
  induction l as [|s l IH]; [done|].
  cbn [encode_items length]. rewrite !length_append. cbn. lia.
Qed.

Lemma encode_basestring_ascii_append s (rest : string) :
  encode_basestring_ascii s +:+ rest
  = String dquote (escape s +:+ String dquote rest).
Proof.
  unfold encode_basestring_ascii.
  change (String dquote ((escape s +:+ String dquote "") +:+ rest) =
          String dquote (escape s +:+ String dquote rest)).
  by rewrite append_assoc.
Qed.

Lemma skip_whitespace_encoded s (rest : string) :
  skip_whitespace (encode_basestring_ascii s +:+ rest)
  = encode_basestring_ascii s +:+ rest.
Proof. by rewrite encode_basestring_ascii_append. Qed.

(** One turn of the loop on an encoded string. *)
Lemma JSONArray_loop_step (fuel : nat) s (rest : string) values :
  is_str s = true → no_surrogate_pair s = true →
  JSONArray_loop (S fuel) (encode_basestring_ascii s +:+ rest) values =
    match skip_whitespace rest with
    | "" => None
    | String nextchar s3 =>
        if Ascii.eqb nextchar "]" then Some (values ++ [s], s3)
        else if Ascii.eqb nextchar "," then
          JSONArray_loop fuel (skip_whitespace s3) (values ++ [s])
        else None
    end.
Proof.
  intros Hstr Hpair.
  rewrite encode_basestring_ascii_append. cbn [JSONArray_loop].
  change (Ascii.eqb dquote dquote) with true. cbv iota.
  by rewrite scanstring_escape.
Qed.

(** The loop reads the items that the encoder wrote. *)
Lemma JSONArray_loop_items l : ∀ s values fuel (tail : string),
  forallb is_str (s :: l) = true →
  forallb no_surrogate_pair (s :: l) = true →
  length l < fuel →
  JSONArray_loop fuel
    (encode_basestring_ascii s +:+ encode_items ", " l +:+ String "]" tail)
    values
  = Some (values ++ s :: l, tail).
Proof.
  induction l as [|s' l IH]; intros s values fuel tail Hstr Hpair Hfuel;
    (destruct fuel as [|fuel]; [lia|]);
    cbn [forallb] in Hstr, Hpair;
    apply andb_true_iff in Hstr as [Hs Hstr];
    apply andb_true_iff in Hpair as [Hp Hpair];
    rewrite JSONArray_loop_step by done.
  - done.
  - cbn [encode_items].
    change ((", " +:+ encode_basestring_ascii s' +:+ encode_items ", " l)
            +:+ String "]" tail)
      with (String "," (String " "
              ((encode_basestring_ascii s' +:+ encode_items ", " l)
               +:+ String "]" tail))).
    rewrite append_assoc.
    cbn [skip_whitespace]. change (is_whitespace ",") with false. cbv iota.
    change (Ascii.eqb "," "]") with false.
    change (Ascii.eqb "," ",") with true. cbv iota.
    cbn [skip_whitespace]. change (is_whitespace " ") with true. cbv iota.
    rewrite skip_whitespace_encoded, IH by (done || cbn in Hfuel; lia).
    by rewrite <- app_assoc.
Qed.

(** The text written for two plain strings, and for a string with a quote, a
    line feed, a character above the ASCII range and one above 0xFFFF. *)
Example json_dumps_Food_Rent :
  json_dumps [str "Food"; str "Rent"]
  = "[" +:+ String dquote ("Food" +:+ String dquote (", "
        +:+ String dquote ("Rent" +:+ String dquote "]"))).
Proof. reflexivity. Qed.

Example json_dumps_escapes :
  json_dumps [[34; 10; 0x20ac; 0x1f600]%N]
  = "[" +:+ String dquote (String backslash (String dquote
        ("\n\u20ac\ud83d\ude00" +:+ String dquote "]"))).
Proof. reflexivity. Qed.

Example json_loads_whitespace :
  json_loads (" [ " +:+ String dquote ("a\/b" +:+ String dquote " ] "))
  = Some [str "a/b"].
Proof. reflexivity. Qed.

(** An escape above 0xFF, in either case of the digits, is read as its
    code point. *)
Example json_loads_euro :
  json_loads ("[" +:+ String dquote ("\u20ac\u20AC" +:+ String dquote "]"))
  = Some [[0x20ac; 0x20ac]%N].
Proof. reflexivity. Qed.

(** A high surrogate and a low surrogate are written as two escapes and
    read back as one code point. *)
Example json_loads_joins_surrogates :
  json_loads (json_dumps [[0xd83d; 0xde00]%N]) = Some [[0x1f600]%N].
Proof. reflexivity. Qed.

(** Round trip: what [json.dumps] writes for a list of strings without a
    high surrogate directly before a low one, [json.loads] reads back as
    that list. *)
Lemma json_loads_dumps l :
  forallb is_str l = true → forallb no_surrogate_pair l = true →
  json_loads (json_dumps l) = Some l.
Proof.
  intros Hstr Hpair.
  destruct l as [|s l]; [done|].
  unfold json_dumps. cbn [encode_items].
  change (("[" +:+ encode_basestring_ascii s +:+ encode_items ", " l) +:+ "]")
    with (String "[" ((encode_basestring_ascii s +:+ encode_items ", " l)
                      +:+ "]")).
  rewrite append_assoc.
  unfold json_loads. cbn [skip_whitespace].
  change (is_whitespace "[") with false. cbv iota.
  change (Ascii.eqb "[" "[") with true. cbv iota.
  unfold JSONArray. rewrite skip_whitespace_encoded.
  assert (Hlen : length l < String.length
            (encode_basestring_ascii s +:+ encode_items ", " l +:+ "]")).
  { rewrite !length_append. pose proof (encode_items_length l). cbn. lia. }
  revert Hlen. rewrite (encode_basestring_ascii_append s) at 1 2.
  cbv iota. change (Ascii.eqb dquote "]") with false. cbv iota.
  rewrite <- encode_basestring_ascii_append. intros Hlen.
  rewrite JSONArray_loop_items by done. done.
Qed.

End JsonArray.

(** ** The store *)

Section StoreLemmas.

Implicit Types (σ : Store) (l : loc).

Lemma dict_of_set_dict σ l d : dict_of (set_dict σ l d) l = d.
Proof. unfold dict_of, set_dict. cbn. apply lookup_total_insert_eq. Qed.

Lemma dict_of_set_dict_ne σ l l' d :
  l ≠ l' → dict_of (set_dict σ l d) l' = dict_of σ l'.
Proof. intros Hne. unfold dict_of, set_dict. cbn. by apply lookup_total_insert_ne. Qed.

Lemma list_of_set_list σ l ps : list_of (set_list σ l ps) l = ps.
Proof. unfold list_of, set_list. cbn. apply lookup_total_insert_eq. Qed.

Lemma list_of_set_list_ne σ l l' ps :
  l ≠ l' → list_of (set_list σ l ps) l' = list_of σ l'.
Proof. intros Hne. unfold list_of, set_list. cbn. by apply lookup_total_insert_ne. Qed.

End StoreLemmas.

Lemma replace_meta_same (t : Transaction) : replace_meta t (meta t) = t.
Proof. by destruct t. Qed.

(** ** add_posting_to_transaction *)

(** C3: on a transaction with exactly one posting,
    [add_posting_to_transaction] yields that transaction with exactly two
    postings, the first one as before and the second one with the given
    account and every other field [None]; on a transaction with any other
    number of postings it returns the transaction and changes nothing. *)
Theorem add_posting_to_transaction_spec :
  ∀ (σ : Store) (t : Transaction) (a : string),
    (length (list_of σ (postings t)) = 1 →
       ∃ p1 p2,
         list_of σ (postings t) = [p1]
         ∧ (add_posting_to_transaction σ t a).2 = t
         ∧ list_of (add_posting_to_transaction σ t a).1
             (postings (add_posting_to_transaction σ t a).2) = [p1; p2]
         ∧ account p2 = a
         ∧ units p2 = None ∧ cost p2 = None ∧ price p2 = None
         ∧ flag p2 = None ∧ posting_meta p2 = None)
    ∧ (length (list_of σ (postings t)) ≠ 1 →
         add_posting_to_transaction σ t a = (σ, t)).
Proof.
  intros σ t a. unfold add_posting_to_transaction. split; intros Hlen.
  - rewrite Hlen. cbn.
    destruct (list_of σ (postings t)) as [|p1 [|? ?]] eqn:Hps; try done.
    exists p1, (empty_posting a). rewrite list_of_set_list. done.
  - apply Nat.eqb_neq in Hlen. by rewrite Hlen.
Qed.

Lemma add_posting_to_transaction_spec_witness :
  (length (list_of sample_store (postings txn_one_posting)) = 1
   ∧ ∃ p1 p2,
       list_of sample_store (postings txn_one_posting) = [p1]
       ∧ (add_posting_to_transaction sample_store txn_one_posting
            "Expenses:Food").2 = txn_one_posting
       ∧ list_of
           (add_posting_to_transaction sample_store txn_one_posting
              "Expenses:Food").1
           (postings
              (add_posting_to_transaction sample_store txn_one_posting
                 "Expenses:Food").2) = [p1; p2]
       ∧ account p2 = "Expenses:Food"
       ∧ units p2 = None ∧ cost p2 = None ∧ price p2 = None
       ∧ flag p2 = None ∧ posting_meta p2 = None)
  ∧ (length (list_of sample_store (postings txn_two_postings)) ≠ 1
     ∧ add_posting_to_transaction sample_store txn_two_postings
         "Expenses:Food" = (sample_store, txn_two_postings)).
Proof.
  split.
  - assert (H : length (list_of sample_store (postings txn_one_posting)) = 1)
      by reflexivity.
    split; [exact H|].
    exact (proj1 (add_posting_to_transaction_spec _ _ _) H).
  - assert (H : length (list_of sample_store (postings txn_two_postings)) ≠ 1)
      by (vm_compute; lia).
    split; [exact H|].
    exact (proj2 (add_posting_to_transaction_spec _ _ _) H).
Defined.

(** ** add_payee_to_transaction *)

Lemma truthy_str_false (s : option string) :
  truthy_str s = false ↔ s = None ∨ s = Some "".
Proof. destruct s as [[|c s]|]; cbn; intuition congruence. Qed.

(** C4, as it holds: on a transaction without a payee, and on one whose
    payee is the empty string, [add_payee_to_transaction] sets the payee to
    [p]; on a transaction whose payee is a non-empty string it returns the
    transaction unchanged when [overwrite] is false; when [overwrite] is true
    the payee is [p] in every case.  No other field changes. *)
Theorem add_payee_to_transaction_spec :
  ∀ (t : Transaction) (p : string),
    (payee t = None ∨ payee t = Some "" →
       ∀ overwrite, payee (add_payee_to_transaction t p overwrite) = Some p)
    ∧ (∀ q, payee t = Some q → q ≠ "" →
         add_payee_to_transaction t p false = t)
    ∧ payee (add_payee_to_transaction t p true) = Some p
    ∧ (∀ overwrite,
         replace_payee (add_payee_to_transaction t p overwrite) (payee t) = t).
Proof.
  intros t p. unfold add_payee_to_transaction. repeat split.
  - intros Hp overwrite. apply truthy_str_false in Hp. by rewrite Hp.
  - intros q Hq Hne. rewrite Hq. by destruct q.
  - by rewrite orb_true_r.
  - intros overwrite.
    destruct (negb (truthy_str (payee t)) || overwrite); by destruct t.
Qed.

Lemma add_payee_to_transaction_spec_witness :
  (payee txn_one_posting = None ∨ payee txn_one_posting = Some "")
  ∧ payee (add_payee_to_transaction txn_one_posting "Migros" false)
    = Some "Migros"
  ∧ payee txn_two_postings = Some "Landlord" ∧ "Landlord" ≠ ""
  ∧ add_payee_to_transaction txn_two_postings "Migros" false
    = txn_two_postings.
Proof.
  assert (H1 : payee txn_one_posting = None ∨ payee txn_one_posting = Some "")
    by (left; reflexivity).
  assert (H2 : payee txn_two_postings = Some "Landlord") by reflexivity.
  assert (H3 : "Landlord" ≠ "") by discriminate.
  split; [exact H1|]. split.
  - exact (proj1 (add_payee_to_transaction_spec _ _) H1 false).
  - split; [exact H2|]. split; [exact H3|].
    exact (proj1 (proj2 (add_payee_to_transaction_spec _ _)) _ H2 H3).
Defined.

(** C4 as stated fails: a transaction whose payee is the empty string has
    its payee replaced although [overwrite] is false. *)
Lemma add_payee_to_transaction_empty_payee_replaced :
  payee txn_no_posting = Some ""
  ∧ payee (add_payee_to_transaction txn_no_posting "Migros" false)
    = Some "Migros"
  ∧ payee (add_payee_to_transaction txn_no_posting "Migros" false)
    ≠ payee txn_no_posting.
Proof. repeat split. discriminate. Qed.

(** C10: on a transaction whose payee is the empty string,
    [add_payee_to_transaction] with [overwrite] false sets the payee to [p],
    as it does on a transaction without a payee. *)
Theorem add_payee_to_transaction_empty_string :
  ∀ (t : Transaction) (p : string),
    payee t = Some "" →
    payee (add_payee_to_transaction t p false) = Some p
    ∧ add_payee_to_transaction t p false
      = add_payee_to_transaction (replace_payee t None) p false.
Proof.
  intros t p Hp. unfold add_payee_to_transaction. rewrite Hp. cbn.
  split; [done|]. by destruct t.
Qed.

Lemma add_payee_to_transaction_empty_string_witness :
  payee txn_no_posting = Some ""
  ∧ payee (add_payee_to_transaction txn_no_posting "Migros" false)
    = Some "Migros"
  ∧ add_payee_to_transaction txn_no_posting "Migros" false
    = add_payee_to_transaction (replace_payee txn_no_posting None)
        "Migros" false.
Proof.
  assert (H : payee txn_no_posting = Some "") by reflexivity.
  split; [exact H|].
  exact (add_payee_to_transaction_empty_string txn_no_posting "Migros" H).
Defined.

(** ** Suggestions in the metadata *)

Section Suggestions.

Implicit Types (σ : Store) (t : Transaction) (s : list pystr).

Lemma add_suggestions_unfold σ t s key :
  _add_suggestions_to_transaction σ t s key
  = (set_dict σ (meta t)
       (<[key := VStr (json_dumps s)]> (dict_of σ (meta t))), t).
Proof.
  unfold _add_suggestions_to_transaction. by rewrite replace_meta_same.
Qed.

(** What one call does, for any key. *)
Lemma add_suggestions_effect σ t s key :
  let r := _add_suggestions_to_transaction σ t s key in
  r.2 = t
  ∧ meta_lookup r.1 r.2 key = Some (VStr (json_dumps s))
  ∧ meta_lookup r.1 t key = Some (VStr (json_dumps s))
  ∧ (∀ k, k ≠ key → meta_lookup r.1 t k = meta_lookup σ t k)
  ∧ lists r.1 = lists σ
  ∧ (∀ l, l ≠ meta t → dict_of r.1 l = dict_of σ l).
Proof.
  rewrite add_suggestions_unfold. unfold meta_lookup. cbn [fst snd].
  rewrite dict_of_set_dict.
  repeat split.
  - apply lookup_insert_eq.
  - apply lookup_insert_eq.
  - intros k Hk. by apply lookup_insert_ne.
  - intros l Hl. by apply dict_of_set_dict_ne.
Qed.

End Suggestions.

(** C2, as it holds: each of the two annotators returns a transaction equal
    field by field to the one passed in, with the same [meta] dictionary, and
    writes the serialized suggestions into that dictionary under the reserved
    key; the write is seen through the returned transaction and through the
    original alike.  The other keys of the dictionary, the other
    dictionaries and the posting lists are unchanged. *)
Theorem add_suggestions_shares_meta :
  ∀ (σ : Store) (t : Transaction) (s : list pystr),
    (let r := add_suggested_accounts_to_transaction σ t s in
     r.2 = t
     ∧ meta_lookup r.1 r.2 "__suggested_accounts__" = Some (VStr (json_dumps s))
     ∧ meta_lookup r.1 t "__suggested_accounts__" = Some (VStr (json_dumps s))
     ∧ (∀ k, k ≠ "__suggested_accounts__" →
          meta_lookup r.1 t k = meta_lookup σ t k)
     ∧ lists r.1 = lists σ
     ∧ (∀ l, l ≠ meta t → dict_of r.1 l = dict_of σ l))
    ∧ (let r := add_suggested_payees_to_transaction σ t s in
       r.2 = t
       ∧ meta_lookup r.1 r.2 "__suggested_payees__" = Some (VStr (json_dumps s))
       ∧ meta_lookup r.1 t "__suggested_payees__" = Some (VStr (json_dumps s))
       ∧ (∀ k, k ≠ "__suggested_payees__" →
            meta_lookup r.1 t k = meta_lookup σ t k)
       ∧ lists r.1 = lists σ
       ∧ (∀ l, l ≠ meta t → dict_of r.1 l = dict_of σ l)).
Proof.
  intros σ t s. split.
  - apply (add_suggestions_effect σ t s METADATA_KEY_SUGGESTED_ACCOUNTS).
  - apply (add_suggestions_effect σ t s METADATA_KEY_SUGGESTED_PAYEES).
Qed.

Lemma add_suggestions_shares_meta_witness :
  "lineno" ≠ "__suggested_accounts__"
  ∧ meta_lookup
      (add_suggested_accounts_to_transaction sample_store txn_two_postings
         [str "Food"; str "Rent"]).1 txn_two_postings "lineno"
    = meta_lookup sample_store txn_two_postings "lineno"
  ∧ meta txn_one_posting ≠ meta txn_two_postings
  ∧ dict_of
      (add_suggested_accounts_to_transaction sample_store txn_two_postings
         [str "Food"; str "Rent"]).1 (meta txn_one_posting)
    = dict_of sample_store (meta txn_one_posting).
Proof.
  assert (H1 : "lineno" ≠ "__suggested_accounts__") by discriminate.
  assert (H2 : meta txn_one_posting ≠ meta txn_two_postings) by discriminate.
  pose proof (proj1 (add_suggestions_shares_meta sample_store txn_two_postings
                       [str "Food"; str "Rent"])) as (_ & _ & _ & Hk & _ & Hl).
  split; [exact H1|]. split; [exact (Hk _ H1)|].
  split; [exact H2|]. exact (Hl _ H2).
Defined.

(** C2 as stated fails: the [meta] mapping of the transaction passed in has
    no suggestions before the call and has them after it. *)
Lemma add_suggestions_mutates_original_meta :
  meta_lookup sample_store txn_one_posting "__suggested_accounts__" = None
  ∧ meta_lookup
      (add_suggested_accounts_to_transaction sample_store txn_one_posting
         [str "Food"; str "Rent"]).1 txn_one_posting "__suggested_accounts__"
    = Some (VStr (json_dumps [str "Food"; str "Rent"]))
  ∧ dict_of
      (add_suggested_accounts_to_transaction sample_store txn_one_posting
         [str "Food"; str "Rent"]).1 (meta txn_one_posting)
    ≠ dict_of sample_store (meta txn_one_posting).
Proof.
  split; [reflexivity|]. split; [reflexivity|].
  intros Heq.
  apply (f_equal (λ d : gmap string PyVal, d !! "__suggested_accounts__")) in Heq.
  vm_compute in Heq. discriminate.
Qed.

(** C6, as it holds: for every list [s] of strings in none of which a
    high surrogate (0xD800 to 0xDBFF) is directly followed by a low surrogate
    (0xDC00 to 0xDFFF), after [add_suggested_accounts_to_transaction(t, s)]
    the entry of the returned transaction's [meta] under
    ['__suggested_accounts__'] is a string that parses as JSON back to the
    list [s]; for [s = ['Food', 'Rent']] the parsed value is
    [['Food', 'Rent']]. *)
Theorem add_suggested_accounts_round_trip :
  ∀ (σ : Store) (t : Transaction),
    (∀ s : list pystr,
       forallb is_str s = true →
       forallb no_surrogate_pair s = true →
       ∃ text,
         meta_lookup (add_suggested_accounts_to_transaction σ t s).1
           (add_suggested_accounts_to_transaction σ t s).2
           "__suggested_accounts__" = Some (VStr text)
         ∧ json_loads text = Some s)
    ∧ (∃ text,
         meta_lookup
           (add_suggested_accounts_to_transaction σ t [str "Food"; str "Rent"]).1
           (add_suggested_accounts_to_transaction σ t [str "Food"; str "Rent"]).2
           "__suggested_accounts__" = Some (VStr text)
         ∧ json_loads text = Some [str "Food"; str "Rent"]).
Proof.
  intros σ t.
  assert (H : ∀ s : list pystr,
            forallb is_str s = true →
            forallb no_surrogate_pair s = true →
            ∃ text,
              meta_lookup (add_suggested_accounts_to_transaction σ t s).1
                (add_suggested_accounts_to_transaction σ t s).2
                "__suggested_accounts__" = Some (VStr text)
              ∧ json_loads text = Some s).
  { intros s Hstr Hpair. exists (json_dumps s).
    split; [|by apply json_loads_dumps].
    apply (add_suggestions_effect σ t s METADATA_KEY_SUGGESTED_ACCOUNTS). }
  split; [exact H | by apply H].
Qed.

Lemma add_suggested_accounts_round_trip_witness :
  forallb is_str [str "Food"; [0x20ac; 0x1f600; 0xde00; 0xd83d]%N] = true
  ∧ forallb no_surrogate_pair
      [str "Food"; [0x20ac; 0x1f600; 0xde00; 0xd83d]%N] = true
  ∧ ∃ text,
      meta_lookup
        (add_suggested_accounts_to_transaction sample_store txn_one_posting
           [str "Food"; [0x20ac; 0x1f600; 0xde00; 0xd83d]%N]).1
        (add_suggested_accounts_to_transaction sample_store txn_one_posting
           [str "Food"; [0x20ac; 0x1f600; 0xde00; 0xd83d]%N]).2
        "__suggested_accounts__" = Some (VStr text)
      ∧ json_loads text = Some [str "Food"; [0x20ac; 0x1f600; 0xde00; 0xd83d]%N].
Proof.
  assert (H1 : forallb is_str
                 [str "Food"; [0x20ac; 0x1f600; 0xde00; 0xd83d]%N] = true)
    by reflexivity.
  assert (H2 : forallb no_surrogate_pair
                 [str "Food"; [0x20ac; 0x1f600; 0xde00; 0xd83d]%N] = true)
    by reflexivity.
  split; [exact H1|]. split; [exact H2|].
  exact (proj1 (add_suggested_accounts_round_trip sample_store
                  txn_one_posting) _ H1 H2).
Defined.

(** C6 as stated fails: a string of two code points, a high surrogate and
    then a low surrogate, is stored as two escapes, and these parse back as a
    string of one code point. *)
Lemma add_suggested_accounts_joins_surrogates :
  forallb is_str [[0xd83d; 0xde00]%N] = true
  ∧ (∃ text,
       meta_lookup
         (add_suggested_accounts_to_transaction sample_store txn_one_posting
            [[0xd83d; 0xde00]%N]).1
         (add_suggested_accounts_to_transaction sample_store txn_one_posting
            [[0xd83d; 0xde00]%N]).2
         "__suggested_accounts__" = Some (VStr text)
       ∧ json_loads text = Some [[0x1f600]%N])
  ∧ [[0x1f600]%N] ≠ [[0xd83d; 0xde00]%N].
Proof.
  split; [reflexivity|]. split; [|discriminate].
  exists (json_dumps [[0xd83d; 0xde00]%N]). split; reflexivity.
Qed.

(** ** load_training_data *)

Section LoadTrainingData.

Variable load_file : string → result (list Obj).
Implicit Types (σ : Store) (entries out : list Obj) (a : string).

Lemma filter_txns_are_txns entries e :
  e ∈ filter_txns entries → isinstance_Transaction e = true.
Proof.
  unfold filter_txns. rewrite list_elem_of_In, filter_In. tauto.
Qed.

Lemma involves_account_txn σ a e :
  isinstance_Transaction e = true →
  involves_account σ a e = Ok (has_posting_on σ a e).
Proof.
  destruct e; try done. intros _. cbn. f_equal. unfold any.
  induction (list_of σ (postings t)) as [|pos ps IH]; [done|].
  cbn. by rewrite IH.
Qed.

(** On a list of transactions the comprehension is a filter. *)
Lemma comprehension_if_txns σ a entries :
  (∀ e, e ∈ entries → isinstance_Transaction e = true) →
  comprehension_if (involves_account σ a) entries
  = Ok (List.filter (has_posting_on σ a) entries).
Proof.
  induction entries as [|e entries IH]; intros Htxn; [done|].
  cbn [comprehension_if List.filter].
  rewrite involves_account_txn by (apply Htxn; left).
  cbn. rewrite IH by (intros e' He'; apply Htxn; by right).
  cbn. done.
Qed.

(** What the comprehension keeps passed its condition. *)
Lemma comprehension_if_kept {A : Type} (cond : A → result bool)
    (data out : list A) :
  comprehension_if cond data = Ok out →
  ∀ x, x ∈ out → cond x = Ok true.
Proof.
  revert out. induction data as [|d data IH]; intros out Hout x Hx.
  - injection Hout as <-. by apply elem_of_nil in Hx.
  - cbn in Hout. destruct (cond d) as [b|] eqn:Hd; [|done].
    destruct (comprehension_if cond data) as [xs|] eqn:Hxs; [|done].
    cbn in Hout. injection Hout as <-.
    destruct b.
    + apply elem_of_cons in Hx as [->|Hx]; [done|]. by apply (IH xs).
    + by apply (IH xs).
Qed.

Lemma involves_account_true σ a e :
  involves_account σ a e = Ok true →
  ∃ t pos, e = OTransaction t
    ∧ pos ∈ list_of σ (postings t) ∧ account pos = a.
Proof.
  destruct e; try done. cbn. intros [= Hany].
  unfold any in Hany. apply existsb_exists in Hany as (b & Hb & Hid).
  unfold id in Hid. subst b.
  apply in_map_iff in Hb as (pos & Hpos & Hin).
  exists t, pos. split; [done|]. split; [by apply list_elem_of_In|].
  by apply String.eqb_eq.
Qed.

(** The loader on a source that is a non-empty list. *)
Lemma load_from_list σ entries known_account :
  entries ≠ [] →
  (if truthy_str known_account then
     filtered ← comprehension_if
                  (involves_account σ (default "" known_account))
                  (filter_txns entries);
     Ok (TDList filtered)
   else Ok (TDList (filter_txns entries)))
  = Ok (TDList (filtered_training_data σ known_account entries)).
Proof.
  intros _. destruct known_account as [[|c a]|]; try done.
  cbn [truthy_str default filtered_training_data].
  rewrite comprehension_if_txns by apply filter_txns_are_txns. done.
Qed.

(** C5, as it holds: when [training_data] is a non-empty list, the
    result is the list of its transactions, restricted, when [known_account]
    is given and is not the empty string, to the transactions with a posting
    on that account; when [training_data] is empty or absent and
    [existing_entries] is a non-empty list, the result is computed in the
    same way from [existing_entries]; and under such an account filter every
    element of any list returned is a transaction with a posting whose
    account is the filter account. *)
Theorem load_training_data_spec :
  ∀ σ,
    (∀ entries known_account existing_entries,
       entries ≠ [] →
       load_training_data load_file σ (TDList entries) known_account
         existing_entries
       = Ok (TDList (filtered_training_data σ known_account entries)))
    ∧ (∀ training_data known_account existing,
         training_data = TDNone ∨ training_data = TDList []
           ∨ training_data = TDPath "" →
         existing ≠ [] →
         load_training_data load_file σ training_data known_account
           (Some existing)
         = Ok (TDList (filtered_training_data σ known_account existing)))
    ∧ (∀ training_data a existing_entries r,
         a ≠ "" →
         load_training_data load_file σ training_data (Some a)
           existing_entries = Ok r →
         ∃ out, r = TDList out
           ∧ ∀ e, e ∈ out →
               ∃ t pos, e = OTransaction t
                 ∧ pos ∈ list_of σ (postings t) ∧ account pos = a).
Proof.
  intros σ. split; [|split].
  - intros entries known_account existing_entries Hne.
    unfold load_training_data.
    destruct entries as [|e entries]; [done|].
    cbn [truthy_training_data negb andb mbind result_bind].
    by apply load_from_list.
  - intros training_data known_account existing Htd Hne.
    unfold load_training_data.
    destruct existing as [|e existing]; [done|].
    destruct Htd as [-> | [-> | ->]];
      cbn [truthy_training_data truthy_entries negb andb of_entries
           mbind result_bind];
      by apply load_from_list.
  - intros training_data a existing_entries r Ha Hr.
    unfold load_training_data in Hr.
    destruct (if negb (truthy_training_data training_data)
                 && truthy_entries existing_entries
              then Ok (of_entries existing_entries)
              else match training_data with
                   | TDPath filename =>
                       entries ← load_file filename; Ok (TDList entries)
                   | _ => Ok training_data
                   end) as [td|] eqn:Hsrc; [|done].
    cbn [mbind result_bind] in Hr.
    assert (Htruthy : truthy_str (Some a) = true) by (by destruct a).
    rewrite Htruthy in Hr. cbn [default] in Hr.
    destruct td as [|entries|[|c path]]; cbn -[filter_txns] in Hr.
    + discriminate Hr.
    + destruct entries as [|e entries]; cbn -[filter_txns] in Hr.
      * injection Hr as <-. exists []. split; [done|].
        intros e He. by apply elem_of_nil in He.
      * destruct (comprehension_if (involves_account σ a)
                    (filter_txns (e :: entries))) as [out|] eqn:Hout;
          [|discriminate Hr].
        cbn in Hr. injection Hr as <-. exists out. split; [done|].
        intros x Hx. apply involves_account_true.
        by apply (comprehension_if_kept _ _ _ Hout).
    + injection Hr as <-. exists []. split; [done|].
      intros e He. by apply elem_of_nil in He.
    + injection Hr as <-. exists []. split; [done|].
      intros e He. by apply elem_of_nil in He.
Qed.

End LoadTrainingData.

(** A file name is handed to the loader, and what it returns is filtered
    like a list. *)
Example load_training_data_from_file :
  load_training_data (λ _, Ok sample_entries) sample_store
    (TDPath "ledger.beancount") (Some "Expenses:Food") None
  = Ok (TDList [OTransaction txn_two_postings]).
Proof. reflexivity. Qed.

Lemma load_training_data_spec_witness :
  (sample_entries ≠ []
   ∧ load_training_data no_files sample_store (TDList sample_entries)
       (Some "Expenses:Food") None
     = Ok (TDList [OTransaction txn_two_postings]))
  ∧ (sample_entries ≠ []
     ∧ load_training_data no_files sample_store TDNone None
         (Some sample_entries)
       = Ok (TDList [OTransaction txn_one_posting;
                     OTransaction txn_two_postings]))
  ∧ ("Expenses:Food" ≠ ""
     ∧ ∃ out, TDList [OTransaction txn_two_postings] = TDList out
         ∧ ∀ e, e ∈ out →
             ∃ t pos, e = OTransaction t
               ∧ pos ∈ list_of sample_store (postings t)
               ∧ account pos = "Expenses:Food").
Proof.
  assert (H1 : sample_entries ≠ []) by discriminate.
  assert (H2 : "Expenses:Food" ≠ "") by discriminate.
  pose proof (load_training_data_spec no_files sample_store) as (Ha & Hb & Hc).
  split; [|split].
  - split; [exact H1|]. exact (Ha _ (Some "Expenses:Food") None H1).
  - split; [exact H1|].
    exact (Hb TDNone None _ (or_introl eq_refl) H1).
  - split; [exact H2|].
    exact (Hc (TDList sample_entries) _ None _ H2
             (Ha _ (Some "Expenses:Food") None H1)).
Defined.

(** C5 as stated fails twice.  With [training_data] absent, a filter
    account and the empty list as [existing_entries], the call raises
    [TypeError] where the existing entries, filtered, are the empty list.
    With the empty string as filter account the transactions are returned
    unfiltered, although none has a posting on that account. *)
Lemma load_training_data_falsy_arguments :
  (load_training_data no_files sample_store TDNone (Some "Expenses:Food")
     (Some []) = Raise TypeError
   ∧ List.filter (has_posting_on sample_store "Expenses:Food") (filter_txns [])
     = [])
  ∧ (load_training_data no_files sample_store
       (TDList [OTransaction txn_two_postings]) (Some "") None
     = Ok (TDList [OTransaction txn_two_postings])
     ∧ List.filter (has_posting_on sample_store "")
         (filter_txns [OTransaction txn_two_postings]) = []).
Proof. repeat split. Qed.

(** ** Field extractors *)

Section Comprehension.

Context {A B : Type}.
Implicit Types (f : A → result B) (data : list A) (out : list B).

(** A comprehension that returns is element-wise. *)
Lemma comprehension_elementwise f data out :
  comprehension f data = Ok out → elementwise f data (Ok out).
Proof.
  revert out. induction data as [|d data IH]; intros out Hout.
  - injection Hout as <-. exists []. repeat split. intros i d Hi. done.
  - cbn in Hout. destruct (f d) as [v|] eqn:Hd; [|done].
    destruct (comprehension f data) as [vs|] eqn:Hvs; [|done].
    cbn in Hout. injection Hout as <-.
    destruct (IH vs eq_refl) as (vs' & [= <-] & Hlen & Hnth).
    exists (v :: vs). split; [done|]. split; [cbn; by rewrite Hlen|].
    intros [|i] d' Hi; cbn in Hi.
    + injection Hi as <-. by exists v.
    + by apply Hnth.
Qed.

(** A comprehension whose function returns on each element returns. *)
Lemma comprehension_returns f data :
  (∀ d, d ∈ data → ∃ v, f d = Ok v) → ∃ out, comprehension f data = Ok out.
Proof.
  induction data as [|d data IH]; intros Hf; [by exists []|].
  destruct (Hf d) as [v Hv]; [left|].
  destruct IH as [vs Hvs]; [intros d' Hd'; apply Hf; by right|].
  exists (v :: vs). cbn. by rewrite Hv, Hvs.
Qed.

Lemma comprehension_spec f data :
  (∀ d, d ∈ data → ∃ v, f d = Ok v) →
  elementwise f data (comprehension f data).
Proof.
  intros Hf. destruct (comprehension_returns f data Hf) as [out Hout].
  rewrite Hout. by apply comprehension_elementwise.
Qed.

End Comprehension.

Lemma index_last_app {A : Type} (l : list A) (x : A) :
  index_last (l ++ [x]) = Ok x.
Proof. unfold index_last. by rewrite last_snoc. Qed.

(** C7, as it holds: the [transform] of [GetPayee], [GetNarration] and
    [GetDayOfMonth] returns, on every list, the list of the same length whose
    element at each position is the projection of the input at that
    position; the [transform] of [GetPostingAccount] and of
    [GetReferencePostingAccount] does so on every list in which each
    transaction has at least one posting.  On a transaction without payee
    [GetPayee] yields the empty string, on one with postings [A, B]
    [GetPostingAccount] yields the account of [B] and
    [GetReferencePostingAccount] the account of [A], and on one dated
    2024-03-15 [GetDayOfMonth] yields 15. *)
Theorem transform_elementwise :
  ∀ (σ : Store) (data : list Obj),
    elementwise GetPayee._get_payee data (GetPayee.transform data)
    ∧ elementwise GetNarration._get_narration data
        (GetNarration.transform data)
    ∧ elementwise GetDayOfMonth._get_day_of_month data
        (GetDayOfMonth.transform data)
    ∧ ((∀ t, OTransaction t ∈ data → list_of σ (postings t) ≠ []) →
         elementwise (GetPostingAccount._get_posting_account σ) data
           (GetPostingAccount.transform σ data)
         ∧ elementwise (GetReferencePostingAccount._get_posting_account σ) data
             (GetReferencePostingAccount.transform σ data))
    ∧ (∀ t, payee t = None →
         GetPayee.transform [OTransaction t] = Ok [VStr ""])
    ∧ (∀ t A B, list_of σ (postings t) = [A; B] →
         GetPostingAccount.transform σ [OTransaction t]
           = Ok [VStr (account B)]
         ∧ GetReferencePostingAccount.transform σ [OTransaction t]
           = Ok [VStr (account A)])
    ∧ (∀ t, date t = {| year := 2024%Z; month := 3%Z; day := 15%Z |} →
         GetDayOfMonth.transform [OTransaction t] = Ok [VInt 15]).
Proof.
  intros σ data.
  split; [apply comprehension_spec; intros [] _; cbn; eauto|].
  split; [apply comprehension_spec; intros [] _; cbn; eauto|].
  split; [apply comprehension_spec; intros [] _; cbn; eauto|].
  split; [|split; [|split]].
  - intros Hps. split.
    + apply comprehension_spec. intros [t| | |] Hd; cbn; eauto.
      specialize (Hps t Hd).
      destruct (list_of σ (postings t)) as [|p ps _] using rev_ind; [done|].
      rewrite index_last_app. cbn. eauto.
    + apply comprehension_spec. intros [t| | |] Hd; cbn; eauto.
      specialize (Hps t Hd).
      destruct (list_of σ (postings t)) as [|p ps]; [done|].
      cbn. eauto.
  - intros t Ht. cbn. by rewrite Ht.
  - intros t A B Hps. cbn. by rewrite Hps.
  - intros t Ht. cbn. by rewrite Ht.
Qed.

Lemma transform_elementwise_witness :
  ((∀ t, OTransaction t ∈ sample_entries →
      list_of sample_store (postings t) ≠ [])
   ∧ elementwise (GetPostingAccount._get_posting_account sample_store)
       sample_entries (GetPostingAccount.transform sample_store sample_entries))
  ∧ (payee txn_one_posting = None
     ∧ GetPayee.transform [OTransaction txn_one_posting] = Ok [VStr ""])
  ∧ (list_of sample_store (postings txn_two_postings) = [posting_A; posting_B]
     ∧ GetPostingAccount.transform sample_store [OTransaction txn_two_postings]
       = Ok [VStr "Expenses:Food"]
     ∧ GetReferencePostingAccount.transform sample_store
         [OTransaction txn_two_postings] = Ok [VStr "Assets:Checking"])
  ∧ (date txn_two_postings
       = {| year := 2024%Z; month := 3%Z; day := 15%Z |}
     ∧ GetDayOfMonth.transform [OTransaction txn_two_postings]
       = Ok [VInt 15]).
Proof.
  pose proof (transform_elementwise sample_store sample_entries)
    as (_ & _ & _ & Hacc & _).
  pose proof (transform_elementwise sample_store [])
    as (_ & _ & _ & _ & Hpayee & Hpost & Hday).
  assert (H1 : ∀ t, OTransaction t ∈ sample_entries →
                 list_of sample_store (postings t) ≠ []).
  { intros t Ht. unfold sample_entries in Ht.
    repeat (apply elem_of_cons in Ht as [Ht|Ht];
            [try discriminate Ht; injection Ht as ->; discriminate|]).
    by apply elem_of_nil in Ht. }
  assert (H2 : payee txn_one_posting = None) by reflexivity.
  assert (H3 : list_of sample_store (postings txn_two_postings)
               = [posting_A; posting_B]) by reflexivity.
  assert (H4 : date txn_two_postings
               = {| year := 2024%Z; month := 3%Z; day := 15%Z |})
    by reflexivity.
  split; [|split; [|split]].
  - split; [exact H1|]. exact (proj1 (Hacc H1)).
  - split; [exact H2|]. exact (Hpayee _ H2).
  - split; [exact H3|]. exact (Hpost _ _ _ H3).
  - split; [exact H4|]. exact (Hday _ H4).
Defined.

(** C7 as stated fails: on a list that holds a transaction without
    postings, the [transform] of [GetPostingAccount] and of
    [GetReferencePostingAccount] raises [IndexError] and returns no list. *)
Lemma transform_raises_without_postings :
  list_of sample_store (postings txn_no_posting) = []
  ∧ GetPostingAccount.transform sample_store [OTransaction txn_no_posting]
    = Raise IndexError
  ∧ GetReferencePostingAccount.transform sample_store
      [OTransaction txn_no_posting] = Raise IndexError.
Proof. repeat split. Qed.

(** C9: on an element that is neither a [Transaction] nor a
    [TxnPostingAccount], each of the five extractors returns [None] and
    raises nothing. *)
Theorem extractors_return_None_on_other_elements :
  ∀ (σ : Store) (d : Obj),
    isinstance_Transaction d = false →
    isinstance_TxnPostingAccount d = false →
    (GetPayee._get_payee d = Ok VNone
     ∧ GetNarration._get_narration d = Ok VNone
     ∧ GetPostingAccount._get_posting_account σ d = Ok VNone
     ∧ GetReferencePostingAccount._get_posting_account σ d = Ok VNone
     ∧ GetDayOfMonth._get_day_of_month d = Ok VNone)
    ∧ (GetPayee.transform [d] = Ok [VNone]
       ∧ GetNarration.transform [d] = Ok [VNone]
       ∧ GetPostingAccount.transform σ [d] = Ok [VNone]
       ∧ GetReferencePostingAccount.transform σ [d] = Ok [VNone]
       ∧ GetDayOfMonth.transform [d] = Ok [VNone]).
Proof. intros σ [] Ht Hx; try discriminate; repeat split. Qed.

Lemma extractors_return_None_on_other_elements_witness :
  isinstance_Transaction (ODirective Open 7 sample_date) = false
  ∧ isinstance_TxnPostingAccount (ODirective Open 7 sample_date) = false
  ∧ GetPayee._get_payee (ODirective Open 7 sample_date) = Ok VNone
  ∧ GetNarration._get_narration (ODirective Open 7 sample_date) = Ok VNone
  ∧ GetPostingAccount._get_posting_account sample_store
      (ODirective Open 7 sample_date) = Ok VNone
  ∧ GetReferencePostingAccount._get_posting_account sample_store
      (ODirective Open 7 sample_date) = Ok VNone
  ∧ GetDayOfMonth._get_day_of_month (ODirective Open 7 sample_date) = Ok VNone.
Proof.
  split; [reflexivity|]. split; [reflexivity|].
  exact (proj1 (extractors_return_None_on_other_elements sample_store
                  (ODirective Open 7 sample_date) eq_refl eq_refl)).
Defined.

(** * Further properties *)

(** ** merge_non_transaction_entries with filter_txns *)

Section MergeFilter.

Implicit Types imported enhanced : list Obj.

Lemma txn_count_filter_txns imported :
  txn_count imported = length (filter_txns imported).
Proof. done. Qed.

Lemma interleave_map_filter_txns (f : Obj → Obj) imported :
  interleave imported (map f (filter_txns imported)) = map_txns f imported.
Proof.
  induction imported as [|entry rest IH]; [done|].
  unfold filter_txns, map_txns in *. cbn [interleave List.filter map].
  destruct (isinstance_Transaction entry); cbn [map]; by rewrite IH.
Qed.

Lemma map_txns_id imported : map_txns id imported = imported.
Proof.
  induction imported as [|e rest IH]; [done|].
  unfold map_txns in *. cbn [map]. rewrite IH.
  by destruct (isinstance_Transaction e).
Qed.

Lemma filter_txns_interleave imported : ∀ enhanced,
  txn_count imported ≤ length enhanced →
  (∀ x, x ∈ enhanced → isinstance_Transaction x = true) →
  filter_txns (interleave imported enhanced)
  = take (txn_count imported) enhanced.
Proof.
  induction imported as [|entry rest IH]; intros enhanced Hlen Htxn; [done|].
  rewrite txn_count_cons in *. cbn [interleave].
  destruct (isinstance_Transaction entry) eqn:He.
  - destruct enhanced as [|x enhanced']; cbn in Hlen; [lia|].
    unfold filter_txns in *. cbn [List.filter take].
    rewrite (Htxn x) by left. f_equal.
    apply IH; [lia|]. intros y Hy. apply Htxn. by right.
  - unfold filter_txns in *. cbn [List.filter]. rewrite He. by apply IH.
Qed.

Lemma filter_others_interleave imported : ∀ enhanced,
  txn_count imported ≤ length enhanced →
  (∀ x, x ∈ enhanced → isinstance_Transaction x = true) →
  List.filter not_Transaction (interleave imported enhanced)
  = List.filter not_Transaction imported.
Proof.
  induction imported as [|entry rest IH]; intros enhanced Hlen Htxn; [done|].
  rewrite txn_count_cons in *. cbn [interleave].
  destruct (isinstance_Transaction entry) eqn:He.
  - destruct enhanced as [|x enhanced']; cbn in Hlen; [lia|].
    cbn [List.filter].
    change (not_Transaction x) with (negb (isinstance_Transaction x)).
    change (not_Transaction entry) with (negb (isinstance_Transaction entry)).
    rewrite He, (Htxn x) by left. cbn.
    apply IH; [lia|]. intros y Hy. apply Htxn. by right.
  - cbn [List.filter].
    change (not_Transaction entry) with (negb (isinstance_Transaction entry)).
    rewrite He. cbn. f_equal. by apply IH.
Qed.

Lemma txn_count_app imported1 imported2 :
  txn_count (imported1 ++ imported2)
  = txn_count imported1 + txn_count imported2.
Proof.
  unfold txn_count. by rewrite List.filter_app, length_app.
Qed.

Lemma interleave_app imported1 imported2 : ∀ enhanced,
  txn_count imported1 ≤ length enhanced →
  interleave (imported1 ++ imported2) enhanced
  = interleave imported1 enhanced
    ++ interleave imported2 (drop (txn_count imported1) enhanced).
Proof.
  induction imported1 as [|entry rest IH]; intros enhanced Hlen; [done|].
  rewrite txn_count_cons in *. cbn [app interleave].
  destruct (isinstance_Transaction entry).
  - destruct enhanced as [|x enhanced']; cbn in Hlen; [lia|].
    cbn [drop app]. rewrite IH by lia. done.
  - cbn [app]. by rewrite IH.
Qed.

End MergeFilter.

(** X1: merging back the transactions of a list, each one transformed by
    any function, gives the list with the function applied to its
    transactions and every other entry in place; with the transactions as
    they are it gives the list back. *)
Theorem merge_of_transformed_transactions :
  ∀ (f : Obj → Obj) (entries : list Obj),
    merge_non_transaction_entries entries (map f (filter_txns entries))
    = Ok (map_txns f entries)
    ∧ merge_non_transaction_entries entries (filter_txns entries)
      = Ok entries.
Proof.
  intros f entries.
  assert (H : ∀ g, merge_non_transaction_entries entries
                     (map g (filter_txns entries)) = Ok (map_txns g entries)).
  { intros g. unfold merge_non_transaction_entries.
    rewrite merge_loop_enough
      by (rewrite length_map, txn_count_filter_txns; lia).
    by rewrite interleave_map_filter_txns. }
  split; [apply H|].
  specialize (H id). rewrite map_id in H. rewrite H. f_equal.
  apply map_txns_id.
Qed.

(** X2: when every enhanced element is a transaction and there are enough
    of them, the transactions of the merged list are the enhanced elements
    that were consumed, in order, and its other entries are those of the
    original list, in order. *)
Theorem merge_then_filter :
  ∀ imported enhanced : list Obj,
    txn_count imported ≤ length enhanced →
    (∀ x, x ∈ enhanced → isinstance_Transaction x = true) →
    ∃ out,
      merge_non_transaction_entries imported enhanced = Ok out
      ∧ filter_txns out = take (txn_count imported) enhanced
      ∧ List.filter not_Transaction out
        = List.filter not_Transaction imported.
Proof.
  intros imported enhanced Hlen Htxn.
  exists (interleave imported enhanced).
  unfold merge_non_transaction_entries. rewrite merge_loop_enough by done.
  split; [done|]. split.
  - by apply filter_txns_interleave.
  - by apply filter_others_interleave.
Qed.

Lemma merge_then_filter_witness :
  txn_count sample_entries ≤ length sample_enhanced
  ∧ (∀ x, x ∈ sample_enhanced → isinstance_Transaction x = true)
  ∧ ∃ out,
      merge_non_transaction_entries sample_entries sample_enhanced = Ok out
      ∧ filter_txns out = take (txn_count sample_entries) sample_enhanced
      ∧ List.filter not_Transaction out
        = List.filter not_Transaction sample_entries.
Proof.
  assert (H1 : txn_count sample_entries ≤ length sample_enhanced)
    by (vm_compute; lia).
  assert (H2 : ∀ x, x ∈ sample_enhanced → isinstance_Transaction x = true).
  { intros x Hx. unfold sample_enhanced in Hx.
    repeat (apply elem_of_cons in Hx as [->|Hx]; [reflexivity|]).
    by apply elem_of_nil in Hx. }
  split; [exact H1|]. split; [exact H2|].
  exact (merge_then_filter sample_entries sample_enhanced H1 H2).
Defined.

(** X3: a list of entries can be merged in two parts: the first part with
    the enhanced sequence, the second part with what the first part left of
    it, and the two results one after the other are the result for the whole
    list. *)
Theorem merge_in_two_parts :
  ∀ imported1 imported2 enhanced : list Obj,
    txn_count (imported1 ++ imported2) ≤ length enhanced →
    ∃ out1 out2,
      merge_non_transaction_entries imported1 enhanced = Ok out1
      ∧ merge_non_transaction_entries imported2
          (drop (txn_count imported1) enhanced) = Ok out2
      ∧ merge_non_transaction_entries (imported1 ++ imported2) enhanced
        = Ok (out1 ++ out2).
Proof.
  intros imported1 imported2 enhanced Hlen.
  rewrite txn_count_app in Hlen.
  exists (interleave imported1 enhanced),
         (interleave imported2 (drop (txn_count imported1) enhanced)).
  unfold merge_non_transaction_entries.
  rewrite !merge_loop_enough
    by (rewrite ?txn_count_app, ?length_drop; lia).
  split; [done|]. split; [done|].
  cbn. by rewrite interleave_app by lia.
Qed.

Lemma merge_in_two_parts_witness :
  txn_count (take 2 sample_entries ++ drop 2 sample_entries)
    ≤ length sample_enhanced
  ∧ ∃ out1 out2,
      merge_non_transaction_entries (take 2 sample_entries) sample_enhanced
        = Ok out1
      ∧ merge_non_transaction_entries (drop 2 sample_entries)
          (drop (txn_count (take 2 sample_entries)) sample_enhanced) = Ok out2
      ∧ merge_non_transaction_entries
          (take 2 sample_entries ++ drop 2 sample_entries) sample_enhanced
        = Ok (out1 ++ out2).
Proof.
  assert (H : txn_count (take 2 sample_entries ++ drop 2 sample_entries)
              ≤ length sample_enhanced) by (vm_compute; lia).
  split; [exact H|].
  exact (merge_in_two_parts _ _ _ H).
Defined.

(** ** add_posting_to_transaction and add_payee_to_transaction together *)

Section PostingPayee.

Implicit Types (σ : Store) (t : Transaction) (a p q : string).

Lemma add_posting_one σ t a po :
  list_of σ (postings t) = [po] →
  add_posting_to_transaction σ t a
  = (set_list σ (postings t) [po; empty_posting a], t).
Proof. intros Hps. unfold add_posting_to_transaction. by rewrite Hps. Qed.

Lemma add_posting_other σ t a :
  length (list_of σ (postings t)) ≠ 1 →
  add_posting_to_transaction σ t a = (σ, t).
Proof.
  intros Hlen. unfold add_posting_to_transaction.
  apply Nat.eqb_neq in Hlen. by rewrite Hlen.
Qed.

(** The posting lists by their number of elements. *)
Lemma postings_cases σ t :
  (∃ po, list_of σ (postings t) = [po])
  ∨ length (list_of σ (postings t)) ≠ 1.
Proof.
  destruct (list_of σ (postings t)) as [|po [|? ?]]; cbn; eauto.
Qed.

Lemma add_payee_keeps_references t p overwrite :
  postings (add_payee_to_transaction t p overwrite) = postings t
  ∧ meta (add_payee_to_transaction t p overwrite) = meta t
  ∧ narration (add_payee_to_transaction t p overwrite) = narration t
  ∧ date (add_payee_to_transaction t p overwrite) = date t.
Proof.
  unfold add_payee_to_transaction.
  by destruct (negb (truthy_str (payee t)) || overwrite).
Qed.

Lemma or_empty_Some p : or_empty (Some p) = p.
Proof. by destruct p. Qed.

End PostingPayee.

(** X4: a second call of [add_posting_to_transaction] on the result of a
    first one changes nothing, whatever the two accounts are. *)
Theorem add_posting_to_transaction_twice :
  ∀ (σ : Store) (t : Transaction) (a b : string),
    add_posting_to_transaction (add_posting_to_transaction σ t a).1
      (add_posting_to_transaction σ t a).2 b
    = add_posting_to_transaction σ t a.
Proof.
  intros σ t a b. destruct (postings_cases σ t) as [[po Hps]|Hlen].
  - rewrite (add_posting_one σ t a po Hps). cbn [fst snd].
    apply add_posting_other. by rewrite list_of_set_list.
  - rewrite (add_posting_other σ t a Hlen). cbn [fst snd].
    by apply add_posting_other.
Qed.

(** X5: after [add_posting_to_transaction] the transaction never has
    exactly one posting; the postings it had are all kept, in order, at the
    front of its list, and at most one posting is added. *)
Theorem add_posting_to_transaction_keeps_postings :
  ∀ (σ : Store) (t : Transaction) (a : string),
    length (list_of (add_posting_to_transaction σ t a).1 (postings t)) ≠ 1
    ∧ list_of σ (postings t)
        `prefix_of` list_of (add_posting_to_transaction σ t a).1 (postings t)
    ∧ length (list_of (add_posting_to_transaction σ t a).1 (postings t))
      ≤ length (list_of σ (postings t)) + 1.
Proof.
  intros σ t a. destruct (postings_cases σ t) as [[po Hps]|Hlen].
  - rewrite (add_posting_one σ t a po Hps). cbn [fst].
    rewrite list_of_set_list, Hps. cbn.
    split; [lia|]. split; [by exists [empty_posting a] | lia].
  - rewrite (add_posting_other σ t a Hlen). cbn [fst].
    split; [done|]. split; [done | lia].
Qed.

(** X6: [add_posting_to_transaction] writes to one posting list only:
    every dictionary, so every [meta] entry of every transaction, and every
    other posting list are as before. *)
Theorem add_posting_to_transaction_frame :
  ∀ (σ : Store) (t : Transaction) (a : string),
    dicts (add_posting_to_transaction σ t a).1 = dicts σ
    ∧ (∀ t' key,
         meta_lookup (add_posting_to_transaction σ t a).1 t' key
         = meta_lookup σ t' key)
    ∧ (∀ l, l ≠ postings t →
         list_of (add_posting_to_transaction σ t a).1 l = list_of σ l).
Proof.
  intros σ t a. destruct (postings_cases σ t) as [[po Hps]|Hlen].
  - rewrite (add_posting_one σ t a po Hps). cbn [fst].
    split; [done|]. split; [done|].
    intros l Hl. by apply list_of_set_list_ne.
  - by rewrite (add_posting_other σ t a Hlen).
Qed.

Lemma add_posting_to_transaction_frame_witness :
  postings txn_two_postings ≠ postings txn_one_posting
  ∧ list_of
      (add_posting_to_transaction sample_store txn_one_posting
         "Expenses:Food").1 (postings txn_two_postings)
    = list_of sample_store (postings txn_two_postings).
Proof.
  assert (H : postings txn_two_postings ≠ postings txn_one_posting)
    by discriminate.
  split; [exact H|].
  exact (proj2 (proj2 (add_posting_to_transaction_frame sample_store
                         txn_one_posting "Expenses:Food")) _ H).
Defined.

(** X7: the copy of a transaction that [add_payee_to_transaction] returns
    shares the posting list of the original, so adding a posting through the
    copy is adding it to the original, and the two steps can be taken in
    either order. *)
Theorem add_posting_through_payee_copy :
  ∀ (σ : Store) (t : Transaction) (p a : string) (overwrite : bool),
    add_posting_to_transaction σ (add_payee_to_transaction t p overwrite) a
    = ((add_posting_to_transaction σ t a).1,
       add_payee_to_transaction (add_posting_to_transaction σ t a).2 p
         overwrite)
    ∧ list_of
        (add_posting_to_transaction σ
           (add_payee_to_transaction t p overwrite) a).1 (postings t)
      = list_of (add_posting_to_transaction σ t a).1 (postings t).
Proof.
  intros σ t p a overwrite.
  assert (H : add_posting_to_transaction σ
                (add_payee_to_transaction t p overwrite) a
              = ((add_posting_to_transaction σ t a).1,
                 add_payee_to_transaction
                   (add_posting_to_transaction σ t a).2 p overwrite)).
  { unfold add_posting_to_transaction.
    rewrite (proj1 (add_payee_keeps_references t p overwrite)).
    by destruct (negb (length (list_of σ (postings t)) =? 1)). }
  split; [exact H | by rewrite H].
Qed.

(** X8: [add_posting_to_transaction] never changes what
    [GetReferencePostingAccount] extracts from the transaction; on a
    transaction with one posting [GetPostingAccount] extracts the new account
    afterwards, and on any other transaction what it extracted before. *)
Theorem add_posting_to_transaction_extractors :
  ∀ (σ : Store) (t : Transaction) (a : string),
    GetReferencePostingAccount._get_posting_account
      (add_posting_to_transaction σ t a).1 (OTransaction t)
    = GetReferencePostingAccount._get_posting_account σ (OTransaction t)
    ∧ (length (list_of σ (postings t)) = 1 →
         GetPostingAccount._get_posting_account
           (add_posting_to_transaction σ t a).1 (OTransaction t)
         = Ok (VStr a))
    ∧ (length (list_of σ (postings t)) ≠ 1 →
         GetPostingAccount._get_posting_account
           (add_posting_to_transaction σ t a).1 (OTransaction t)
         = GetPostingAccount._get_posting_account σ (OTransaction t)).
Proof.
  intros σ t a. destruct (postings_cases σ t) as [[po Hps]|Hlen].
  - rewrite (add_posting_one σ t a po Hps). cbn [fst].
    unfold GetReferencePostingAccount._get_posting_account,
      GetPostingAccount._get_posting_account.
    rewrite list_of_set_list, Hps. cbn. done.
  - rewrite (add_posting_other σ t a Hlen). cbn [fst].
    split; [done|]. split; [intros Hone; by destruct Hlen | done].
Qed.

Lemma add_posting_to_transaction_extractors_witness :
  (length (list_of sample_store (postings txn_one_posting)) = 1
   ∧ GetPostingAccount._get_posting_account
       (add_posting_to_transaction sample_store txn_one_posting
          "Expenses:Food").1 (OTransaction txn_one_posting)
     = Ok (VStr "Expenses:Food"))
  ∧ (length (list_of sample_store (postings txn_no_posting)) ≠ 1
     ∧ GetPostingAccount._get_posting_account
         (add_posting_to_transaction sample_store txn_no_posting
            "Expenses:Food").1 (OTransaction txn_no_posting)
       = GetPostingAccount._get_posting_account sample_store
           (OTransaction txn_no_posting)).
Proof.
  assert (H1 : length (list_of sample_store (postings txn_one_posting)) = 1)
    by reflexivity.
  assert (H2 : length (list_of sample_store (postings txn_no_posting)) ≠ 1)
    by (vm_compute; lia).
  split.
  - split; [exact H1|].
    exact (proj1 (proj2 (add_posting_to_transaction_extractors
                           sample_store txn_one_posting "Expenses:Food")) H1).
  - split; [exact H2|].
    exact (proj2 (proj2 (add_posting_to_transaction_extractors
                           sample_store txn_no_posting "Expenses:Food")) H2).
Defined.

(** X9: calls of [add_payee_to_transaction] one after the other.  The same
    call twice is the call once.  Without [overwrite] a first payee that is
    not the empty string stays, and a first payee that is the empty string
    does not keep a second one from being set.  With [overwrite] the last
    payee wins. *)
Theorem add_payee_to_transaction_twice :
  ∀ (t : Transaction) (p q : string) (overwrite : bool),
    add_payee_to_transaction (add_payee_to_transaction t p overwrite) p
      overwrite
    = add_payee_to_transaction t p overwrite
    ∧ (p ≠ "" →
         add_payee_to_transaction (add_payee_to_transaction t p false) q false
         = add_payee_to_transaction t p false)
    ∧ (truthy_str (payee t) = false →
         add_payee_to_transaction (add_payee_to_transaction t "" false) q
           false
         = add_payee_to_transaction t q false)
    ∧ add_payee_to_transaction (add_payee_to_transaction t p overwrite) q true
      = add_payee_to_transaction t q true.
Proof.
  intros t p q overwrite. unfold add_payee_to_transaction.
  split; [|split; [|split]].
  - destruct (truthy_str (payee t)) eqn:Ht, overwrite; cbn;
      rewrite ?Ht; cbn; try done; by destruct p, t.
  - intros Hp. destruct (truthy_str (payee t)) eqn:Ht; cbn.
    + by rewrite Ht.
    + destruct p; [done|]. done.
  - intros Ht. rewrite Ht. cbn. by destruct t.
  - rewrite !orb_true_r. by destruct (_ || _), t.
Qed.

Lemma add_payee_to_transaction_twice_witness :
  ("Migros" ≠ ""
   ∧ add_payee_to_transaction
       (add_payee_to_transaction txn_one_posting "Migros" false) "Coop" false
     = add_payee_to_transaction txn_one_posting "Migros" false)
  ∧ (truthy_str (payee txn_no_posting) = false
     ∧ add_payee_to_transaction
         (add_payee_to_transaction txn_no_posting "" false) "Coop" false
       = add_payee_to_transaction txn_no_posting "Coop" false).
Proof.
  assert (H1 : "Migros" ≠ "") by discriminate.
  assert (H2 : truthy_str (payee txn_no_posting) = false) by reflexivity.
  split.
  - split; [exact H1|].
    exact (proj1 (proj2 (add_payee_to_transaction_twice txn_one_posting
                           "Migros" "Coop" false)) H1).
  - split; [exact H2|].
    exact (proj1 (proj2 (proj2 (add_payee_to_transaction_twice txn_no_posting
                                  "Migros" "Coop" false))) H2).
Defined.

(** X10: what the extractors see of [add_payee_to_transaction].  The
    narration, the day of the month and the two posting accounts are those of
    the original.  Without [overwrite] the extracted payee is the one
    extracted from the original unless that was the empty string, and is the
    new payee then; with [overwrite] it is the new payee. *)
Theorem add_payee_to_transaction_extractors :
  ∀ (σ : Store) (t : Transaction) (p : string) (overwrite : bool),
    GetNarration._get_narration
      (OTransaction (add_payee_to_transaction t p overwrite))
    = GetNarration._get_narration (OTransaction t)
    ∧ GetDayOfMonth._get_day_of_month
        (OTransaction (add_payee_to_transaction t p overwrite))
      = GetDayOfMonth._get_day_of_month (OTransaction t)
    ∧ GetPostingAccount._get_posting_account σ
        (OTransaction (add_payee_to_transaction t p overwrite))
      = GetPostingAccount._get_posting_account σ (OTransaction t)
    ∧ GetReferencePostingAccount._get_posting_account σ
        (OTransaction (add_payee_to_transaction t p overwrite))
      = GetReferencePostingAccount._get_posting_account σ (OTransaction t)
    ∧ (GetPayee._get_payee (OTransaction t) = Ok (VStr "") →
         GetPayee._get_payee
           (OTransaction (add_payee_to_transaction t p false))
         = Ok (VStr p))
    ∧ (GetPayee._get_payee (OTransaction t) ≠ Ok (VStr "") →
         GetPayee._get_payee
           (OTransaction (add_payee_to_transaction t p false))
         = GetPayee._get_payee (OTransaction t))
    ∧ GetPayee._get_payee (OTransaction (add_payee_to_transaction t p true))
      = Ok (VStr p).
Proof.
  intros σ t p overwrite.
  destruct (add_payee_keeps_references t p overwrite) as (Hps & _ & Hn & Hd).
  cbn. rewrite Hps, Hn, Hd.
  do 4 (split; [done|]). split; [|split].
  - unfold add_payee_to_transaction.
    destruct (payee t) as [[|c s]|]; cbn; intros Hp;
      [| discriminate Hp |]; by rewrite or_empty_Some.
  - unfold add_payee_to_transaction.
    destruct (payee t) as [[|c s]|] eqn:Hp; cbn; intros Hne;
      [by destruct Hne | by rewrite Hp | by destruct Hne].
  - unfold add_payee_to_transaction. rewrite orb_true_r. cbn.
    by rewrite or_empty_Some.
Qed.

Lemma add_payee_to_transaction_extractors_witness :
  (GetPayee._get_payee (OTransaction txn_no_posting) = Ok (VStr "")
   ∧ GetPayee._get_payee
       (OTransaction (add_payee_to_transaction txn_no_posting "Migros" false))
     = Ok (VStr "Migros"))
  ∧ (GetPayee._get_payee (OTransaction txn_two_postings) ≠ Ok (VStr "")
     ∧ GetPayee._get_payee
         (OTransaction
            (add_payee_to_transaction txn_two_postings "Migros" false))
       = GetPayee._get_payee (OTransaction txn_two_postings)).
Proof.
  assert (H1 : GetPayee._get_payee (OTransaction txn_no_posting)
               = Ok (VStr "")) by reflexivity.
  assert (H2 : GetPayee._get_payee (OTransaction txn_two_postings)
               ≠ Ok (VStr "")) by discriminate.
  pose proof (add_payee_to_transaction_extractors sample_store txn_no_posting
                "Migros" false) as (_ & _ & _ & _ & Ha & _).
  pose proof (add_payee_to_transaction_extractors sample_store
                txn_two_postings "Migros" false) as (_ & _ & _ & _ & _ & Hb & _).
  split.
  - split; [exact H1 | exact (Ha H1)].
  - split; [exact H2 | exact (Hb H2)].
Defined.

(** ** The annotators one after the other *)

Section SuggestionsCompose.

Implicit Types (σ : Store) (t : Transaction) (s : list pystr) (key : string).

Lemma set_dict_set_dict σ l d1 d2 :
  set_dict (set_dict σ l d1) l d2 = set_dict σ l d2.
Proof. unfold set_dict. cbn. by rewrite insert_insert_eq. Qed.

Lemma add_suggestions_twice σ t s1 s2 key :
  _add_suggestions_to_transaction
    (_add_suggestions_to_transaction σ t s1 key).1
    (_add_suggestions_to_transaction σ t s1 key).2 s2 key
  = _add_suggestions_to_transaction σ t s2 key.
Proof.
  rewrite !add_suggestions_unfold. cbn [fst snd].
  rewrite ?add_suggestions_unfold, dict_of_set_dict, set_dict_set_dict.
  by rewrite insert_insert_eq.
Qed.

Lemma add_suggestions_commute σ t s1 s2 key1 key2 :
  key1 ≠ key2 →
  _add_suggestions_to_transaction
    (_add_suggestions_to_transaction σ t s1 key1).1
    (_add_suggestions_to_transaction σ t s1 key1).2 s2 key2
  = _add_suggestions_to_transaction
      (_add_suggestions_to_transaction σ t s2 key2).1
      (_add_suggestions_to_transaction σ t s2 key2).2 s1 key1.
Proof.
  intros Hne. rewrite !add_suggestions_unfold. cbn [fst snd].
  rewrite ?add_suggestions_unfold, !dict_of_set_dict, !set_dict_set_dict.
  by rewrite insert_insert_ne.
Qed.

(** Functions that read posting lists only do not see a change of a
    dictionary. *)
Lemma list_of_set_dict σ l d l' : list_of (set_dict σ l d) l' = list_of σ l'.
Proof. done. Qed.

Lemma comprehension_ext {A B : Type} (f g : A → result B) (data : list A) :
  (∀ d, f d = g d) → comprehension f data = comprehension g data.
Proof.
  intros Hfg. induction data as [|d data IH]; [done|].
  cbn. by rewrite Hfg, IH.
Qed.

Lemma load_training_data_set_dict load_file σ l d training_data known_account
    existing_entries :
  load_training_data load_file (set_dict σ l d) training_data known_account
    existing_entries
  = load_training_data load_file σ training_data known_account
      existing_entries.
Proof.
  unfold load_training_data.
  destruct (if negb (truthy_training_data training_data)
               && truthy_entries existing_entries
            then _ else _) as [td|]; [|done].
  cbn [mbind result_bind].
  destruct (truthy_str known_account); [|done].
  by destruct (if truthy_training_data td then _ else td).
Qed.

End SuggestionsCompose.

(** X11: a second list of suggestions under the same key replaces the
    first: two calls of an annotator leave the store and return the
    transaction as the second call alone does. *)
Theorem add_suggestions_last_write_wins :
  ∀ (σ : Store) (t : Transaction) (s1 s2 : list pystr),
    add_suggested_accounts_to_transaction
      (add_suggested_accounts_to_transaction σ t s1).1
      (add_suggested_accounts_to_transaction σ t s1).2 s2
    = add_suggested_accounts_to_transaction σ t s2
    ∧ add_suggested_payees_to_transaction
        (add_suggested_payees_to_transaction σ t s1).1
        (add_suggested_payees_to_transaction σ t s1).2 s2
      = add_suggested_payees_to_transaction σ t s2.
Proof.
  intros σ t s1 s2. split; apply add_suggestions_twice.
Qed.

(** X12: suggested accounts and suggested payees do not disturb each
    other: the two annotators in either order return the same transaction and
    leave the same mapping from keys to values in its [meta] (the order in
    which the dictionary lists its keys is no part of the model).
    Afterwards each of the two keys holds the text written for its own list,
    which parses back to that list when no string of it has a high surrogate
    directly before a low surrogate. *)
Theorem add_suggestions_accounts_and_payees :
  ∀ (σ : Store) (t : Transaction) (accounts payees : list pystr),
    add_suggested_payees_to_transaction
      (add_suggested_accounts_to_transaction σ t accounts).1
      (add_suggested_accounts_to_transaction σ t accounts).2 payees
    = add_suggested_accounts_to_transaction
        (add_suggested_payees_to_transaction σ t payees).1
        (add_suggested_payees_to_transaction σ t payees).2 accounts
    ∧ meta_lookup
        (add_suggested_payees_to_transaction
           (add_suggested_accounts_to_transaction σ t accounts).1
           (add_suggested_accounts_to_transaction σ t accounts).2 payees).1
        t "__suggested_accounts__" = Some (VStr (json_dumps accounts))
    ∧ meta_lookup
        (add_suggested_payees_to_transaction
           (add_suggested_accounts_to_transaction σ t accounts).1
           (add_suggested_accounts_to_transaction σ t accounts).2 payees).1
        t "__suggested_payees__" = Some (VStr (json_dumps payees))
    ∧ (forallb is_str accounts = true →
       forallb no_surrogate_pair accounts = true →
       json_loads (json_dumps accounts) = Some accounts)
    ∧ (forallb is_str payees = true →
       forallb no_surrogate_pair payees = true →
       json_loads (json_dumps payees) = Some payees).
Proof.
  intros σ t accounts payees. split; [|split; [|split; [|split]]].
  - by apply add_suggestions_commute.
  - unfold add_suggested_payees_to_transaction,
      add_suggested_accounts_to_transaction.
    rewrite !add_suggestions_unfold. cbn [fst snd].
    rewrite ?add_suggestions_unfold. cbn [fst].
    unfold meta_lookup. rewrite !dict_of_set_dict.
    by rewrite lookup_insert_ne, lookup_insert_eq.
  - unfold add_suggested_payees_to_transaction,
      add_suggested_accounts_to_transaction.
    rewrite !add_suggestions_unfold. cbn [fst snd].
    rewrite ?add_suggestions_unfold. cbn [fst].
    unfold meta_lookup. rewrite !dict_of_set_dict.
    by rewrite lookup_insert_eq.
  - apply json_loads_dumps.
  - apply json_loads_dumps.
Qed.

Lemma add_suggestions_accounts_and_payees_witness :
  forallb is_str [str "Expenses:Food"; [0x20ac]%N] = true
  ∧ forallb no_surrogate_pair [str "Expenses:Food"; [0x20ac]%N] = true
  ∧ json_loads (json_dumps [str "Expenses:Food"; [0x20ac]%N])
    = Some [str "Expenses:Food"; [0x20ac]%N]
  ∧ forallb is_str [str "Migros"] = true
  ∧ forallb no_surrogate_pair [str "Migros"] = true
  ∧ json_loads (json_dumps [str "Migros"]) = Some [str "Migros"].
Proof.
  assert (H1 : forallb is_str [str "Expenses:Food"; [0x20ac]%N] = true)
    by reflexivity.
  assert (H2 : forallb no_surrogate_pair [str "Expenses:Food"; [0x20ac]%N]
               = true) by reflexivity.
  assert (H3 : forallb is_str [str "Migros"] = true) by reflexivity.
  assert (H4 : forallb no_surrogate_pair [str "Migros"] = true)
    by reflexivity.
  pose proof (add_suggestions_accounts_and_payees sample_store
                txn_one_posting [str "Expenses:Food"; [0x20ac]%N]
                [str "Migros"]) as (_ & _ & _ & Ha & Hp).
  split; [exact H1|]. split; [exact H2|]. split; [exact (Ha H1 H2)|].
  split; [exact H3|]. split; [exact H4 | exact (Hp H3 H4)].
Defined.

(** X13: the copy of a transaction that [add_payee_to_transaction]
    returns shares the [meta] dictionary of the original: suggestions added
    to the original are read through the copy, and annotating the copy writes
    the same store as annotating the original. *)
Theorem add_suggestions_through_payee_copy :
  ∀ (σ : Store) (t : Transaction) (p : string) (overwrite : bool)
    (s : list pystr),
    meta_lookup (add_suggested_accounts_to_transaction σ t s).1
      (add_payee_to_transaction t p overwrite) "__suggested_accounts__"
    = Some (VStr (json_dumps s))
    ∧ add_suggested_accounts_to_transaction σ
        (add_payee_to_transaction t p overwrite) s
      = ((add_suggested_accounts_to_transaction σ t s).1,
         add_payee_to_transaction t p overwrite).
Proof.
  intros σ t p overwrite s.
  unfold add_suggested_accounts_to_transaction.
  rewrite !add_suggestions_unfold. cbn [fst].
  unfold meta_lookup.
  rewrite (proj1 (proj2 (add_payee_keeps_references t p overwrite))).
  rewrite dict_of_set_dict. split; [apply lookup_insert_eq | done].
Qed.

(** X14: the annotators write to a dictionary only, so what reads posting
    lists is as before: the [transform] of the two posting-account
    extractors on any list, and [load_training_data] on any arguments. *)
Theorem add_suggestions_keeps_postings :
  ∀ (load_file : string → result (list Obj)) (σ : Store) (t : Transaction)
    (s : list pystr) (key : string) (data : list Obj)
    (training_data : TrainingData) (known_account : option string)
    (existing_entries : option (list Obj)),
    lists (_add_suggestions_to_transaction σ t s key).1 = lists σ
    ∧ GetPostingAccount.transform
        (_add_suggestions_to_transaction σ t s key).1 data
      = GetPostingAccount.transform σ data
    ∧ GetReferencePostingAccount.transform
        (_add_suggestions_to_transaction σ t s key).1 data
      = GetReferencePostingAccount.transform σ data
    ∧ load_training_data load_file
        (_add_suggestions_to_transaction σ t s key).1 training_data
        known_account existing_entries
      = load_training_data load_file σ training_data known_account
          existing_entries.
Proof.
  intros load_file σ t s key data training_data known_account
    existing_entries.
  rewrite add_suggestions_unfold. cbn [fst].
  split; [done|]. split; [|split].
  - apply comprehension_ext. by intros [].
  - apply comprehension_ext. by intros [].
  - apply load_training_data_set_dict.
Qed.

(** X15: adding a posting and adding suggestions touch different parts of
    the store, so the two steps give the same store in either order, on the
    same transaction or on two different ones. *)
Theorem add_posting_and_suggestions_commute :
  ∀ (σ : Store) (t t' : Transaction) (a : string) (s : list pystr)
    (key : string),
    (_add_suggestions_to_transaction
       (add_posting_to_transaction σ t a).1 t' s key).1
    = (add_posting_to_transaction
         (_add_suggestions_to_transaction σ t' s key).1 t a).1.
Proof.
  intros σ t t' a s key. rewrite !add_suggestions_unfold. cbn [fst].
  unfold add_posting_to_transaction. rewrite !list_of_set_dict.
  destruct (negb (length (list_of σ (postings t)) =? 1)); done.
Qed.

(** ** load_training_data: sources, edge cases, repeated loading *)

Section LoadMore.

Variable load_file : string → result (list Obj).
Implicit Types (σ : Store) (entries src out : list Obj).

Lemma filtered_training_data_nil σ known_account :
  filtered_training_data σ known_account [] = [].
Proof. by destruct known_account as [[|c a]|]. Qed.

(** The loader on a source that is a list, empty or not, without
    fallback. *)
Lemma load_training_data_of_list σ entries known_account existing_entries :
  entries ≠ [] ∨ truthy_entries existing_entries = false →
  load_training_data load_file σ (TDList entries) known_account
    existing_entries
  = Ok (TDList (filtered_training_data σ known_account entries)).
Proof.
  intros Hsrc. unfold load_training_data.
  destruct entries as [|e entries].
  - destruct Hsrc as [Hne|Hex]; [done|].
    cbn [truthy_training_data negb andb]. rewrite Hex.
    cbn [mbind result_bind truthy_training_data].
    by destruct known_account as [[|c a]|].
  - cbn [truthy_training_data negb andb mbind result_bind].
    by apply load_from_list.
Qed.

(** The loader on a fallback that is used. *)
Lemma load_training_data_of_fallback σ training_data known_account existing :
  truthy_training_data training_data = false →
  existing ≠ [] →
  load_training_data load_file σ training_data known_account (Some existing)
  = Ok (TDList (filtered_training_data σ known_account existing)).
Proof.
  intros Htd Hne. unfold load_training_data. rewrite Htd.
  destruct existing as [|e existing]; [done|].
  cbn [truthy_entries negb andb of_entries mbind result_bind
       truthy_training_data].
  by apply load_from_list.
Qed.

(** The loader on a file name that is used. *)
Lemma load_training_data_of_file σ filename known_account existing_entries :
  filename ≠ "" ∨ truthy_entries existing_entries = false →
  load_training_data load_file σ (TDPath filename) known_account
    existing_entries
  = (entries ← load_file filename;
     Ok (TDList (filtered_training_data σ known_account entries))).
Proof.
  intros Hsrc. unfold load_training_data.
  assert (Hcond : negb (truthy_training_data (TDPath filename))
                  && truthy_entries existing_entries = false).
  { destruct Hsrc as [Hne|Hex]; [by destruct filename|].
    rewrite Hex. apply andb_false_r. }
  rewrite Hcond. destruct (load_file filename) as [entries|e]; [|done].
  cbn [mbind result_bind].
  destruct entries as [|e entries].
  - cbn [truthy_training_data]. by destruct known_account as [[|c a]|].
  - cbn [truthy_training_data]. by apply load_from_list.
Qed.

(** Every list that the loader returns is the filtered form of a source:
    the fallback, the explicit list, or the entries of the file. *)
Lemma load_training_data_sources σ training_data known_account
    existing_entries out :
  load_training_data load_file σ training_data known_account
    existing_entries = Ok (TDList out) →
  ∃ src, out = filtered_training_data σ known_account src
    ∧ (existing_entries = Some src
       ∨ training_data = TDList src
       ∨ ∃ filename, training_data = TDPath filename
                     ∧ load_file filename = Ok src).
Proof.
  intros Hout.
  destruct (truthy_entries existing_entries) eqn:Hex;
    [destruct (truthy_training_data training_data) eqn:Htd|].
  - (* explicit data, the fallback is not looked at *)
    destruct training_data as [|entries|filename]; [done| |].
    + rewrite load_training_data_of_list in Hout
        by (left; by destruct entries).
      injection Hout as <-. eauto.
    + rewrite load_training_data_of_file in Hout
        by (left; by destruct filename).
      destruct (load_file filename) as [entries|e] eqn:Hfile; [|done].
      injection Hout as <-.
      exists entries. split; [done|]. right; right. by exists filename.
  - (* the fallback *)
    destruct existing_entries as [[|e existing]|]; try done.
    rewrite load_training_data_of_fallback in Hout by done.
    injection Hout as <-. eauto.
  - (* no fallback *)
    destruct training_data as [|entries|filename].
    + unfold load_training_data in Hout. rewrite Hex in Hout.
      cbn in Hout. by destruct (truthy_str known_account).
    + rewrite load_training_data_of_list in Hout by (by right).
      injection Hout as <-. eauto.
    + rewrite load_training_data_of_file in Hout by (by right).
      destruct (load_file filename) as [entries|e] eqn:Hfile; [|done].
      injection Hout as <-.
      exists entries. split; [done|]. right; right. by exists filename.
Qed.

Lemma filter_all {A : Type} (f : A → bool) (l : list A) :
  (∀ x, x ∈ l → f x = true) → List.filter f l = l.
Proof.
  induction l as [|x l IH]; intros Hall; [done|].
  cbn. rewrite Hall by left. f_equal. apply IH.
  intros y Hy. apply Hall. by right.
Qed.

Lemma sublist_filter_bool {A : Type} (f : A → bool) (l : list A) :
  sublist (List.filter f l) l.
Proof.
  induction l as [|x l IH]; [done|].
  cbn. destruct (f x); by constructor.
Qed.

Lemma filtered_training_data_sublist σ known_account src :
  sublist (filtered_training_data σ known_account src) src.
Proof.
  unfold filtered_training_data, filter_txns.
  destruct known_account as [[|c a]|]; try apply sublist_filter_bool.
  etrans; apply sublist_filter_bool.
Qed.

Lemma filtered_training_data_txns σ known_account src e :
  e ∈ filtered_training_data σ known_account src →
  isinstance_Transaction e = true.
Proof.
  unfold filtered_training_data.
  destruct known_account as [[|c a]|]; try apply filter_txns_are_txns.
  rewrite list_elem_of_In, filter_In, <- list_elem_of_In.
  intros [He _]. by apply filter_txns_are_txns in He.
Qed.

Lemma filtered_training_data_idemp σ known_account src :
  filtered_training_data σ known_account
    (filtered_training_data σ known_account src)
  = filtered_training_data σ known_account src.
Proof.
  unfold filtered_training_data, filter_txns.
  destruct known_account as [[|c a]|].
  - apply filter_all. intros x. rewrite list_elem_of_In, filter_In. tauto.
  - rewrite (filter_all isinstance_Transaction).
    + apply filter_all. intros x. rewrite list_elem_of_In, filter_In. tauto.
    + intros x. rewrite list_elem_of_In, !filter_In. tauto.
  - apply filter_all. intros x. rewrite list_elem_of_In, filter_In. tauto.
Qed.

(** X16: whatever its arguments, a list that [load_training_data]
    returns holds transactions only, and it is a selection, in the same
    order, of the fallback entries, of the explicit list, or of the entries
    that the file loader returned. *)
Theorem load_training_data_selects_transactions :
  ∀ σ training_data known_account existing_entries out,
    load_training_data load_file σ training_data known_account
      existing_entries = Ok (TDList out) →
    (∀ e, e ∈ out → isinstance_Transaction e = true)
    ∧ ∃ src, sublist out src
        ∧ (existing_entries = Some src
           ∨ training_data = TDList src
           ∨ ∃ filename, training_data = TDPath filename
                         ∧ load_file filename = Ok src).
Proof.
  intros σ training_data known_account existing_entries out Hout.
  apply load_training_data_sources in Hout as (src & -> & Hsrc).
  split.
  - intros e. apply filtered_training_data_txns.
  - exists src. split; [apply filtered_training_data_sublist | done].
Qed.


(** X18: with nothing to load from (no training data, and a fallback that
    is absent or empty) the call returns its first argument as it is, [None]
    or the empty list, when there is no filter account; with a filter account
    it raises [TypeError] on [None] and returns the empty list on the empty
    list. *)
Theorem load_training_data_nothing_to_load :
  ∀ σ known_account existing_entries,
    truthy_entries existing_entries = false →
    (truthy_str known_account = false →
       load_training_data load_file σ TDNone known_account existing_entries
       = Ok TDNone)
    ∧ (truthy_str known_account = true →
         load_training_data load_file σ TDNone known_account existing_entries
         = Raise TypeError)
    ∧ load_training_data load_file σ (TDList []) known_account
        existing_entries = Ok (TDList []).
Proof.
  intros σ known_account existing_entries Hex.
  unfold load_training_data. rewrite Hex. cbn.
  split; [by intros -> | split; [by intros -> |]].
  by destruct (truthy_str known_account).
Qed.

(** X19: loading is idempotent: a list that [load_training_data] returned,
    given back to it as explicit training data with the same filter account,
    is returned as it is. *)
Theorem load_training_data_again :
  ∀ σ training_data known_account existing_entries out,
    load_training_data load_file σ training_data known_account
      existing_entries = Ok (TDList out) →
    load_training_data load_file σ (TDList out) known_account None
    = Ok (TDList out).
Proof.
  intros σ training_data known_account existing_entries out Hout.
  apply load_training_data_sources in Hout as (src & -> & _).
  rewrite load_training_data_of_list by (by right).
  by rewrite filtered_training_data_idemp.
Qed.

End LoadMore.

(** X20: when the first argument is not a file name the file loader plays
    no part: the result is the same with any two loaders. *)
Theorem load_training_data_without_file :
  ∀ (load_file1 load_file2 : string → result (list Obj)) (σ : Store)
    (training_data : TrainingData) (known_account : option string)
    (existing_entries : option (list Obj)),
    (∀ filename, training_data ≠ TDPath filename) →
    load_training_data load_file1 σ training_data known_account
      existing_entries
    = load_training_data load_file2 σ training_data known_account
        existing_entries.
Proof.
  intros load_file1 load_file2 σ training_data known_account
    existing_entries Hpath.
  unfold load_training_data.
  destruct training_data as [| |filename]; try done.
  by destruct (Hpath filename).
Qed.

Lemma load_training_data_selects_transactions_witness :
  load_training_data one_file sample_store (TDPath "ledger.beancount")
    (Some "Expenses:Food") None
  = Ok (TDList [OTransaction txn_two_postings])
  ∧ (∀ e, e ∈ [OTransaction txn_two_postings] →
       isinstance_Transaction e = true)
  ∧ ∃ src, sublist [OTransaction txn_two_postings] src
      ∧ (None = Some src
         ∨ TDPath "ledger.beancount" = TDList src
         ∨ ∃ filename, TDPath "ledger.beancount" = TDPath filename
                       ∧ one_file filename = Ok src).
Proof.
  assert (H : load_training_data one_file sample_store
                (TDPath "ledger.beancount") (Some "Expenses:Food") None
              = Ok (TDList [OTransaction txn_two_postings])) by reflexivity.
  split; [exact H|].
  exact (load_training_data_selects_transactions one_file sample_store
           _ _ _ _ H).
Defined.


Lemma load_training_data_nothing_to_load_witness :
  truthy_entries (Some []) = false
  ∧ (truthy_str None = false
     ∧ load_training_data no_files sample_store TDNone None (Some [])
       = Ok TDNone)
  ∧ (truthy_str (Some "Expenses:Food") = true
     ∧ load_training_data no_files sample_store TDNone
         (Some "Expenses:Food") (Some []) = Raise TypeError).
Proof.
  assert (H1 : truthy_entries (Some []) = false) by reflexivity.
  assert (H2 : truthy_str None = false) by reflexivity.
  assert (H3 : truthy_str (Some "Expenses:Food") = true) by reflexivity.
  split; [exact H1|]. split.
  - split; [exact H2|].
    exact (proj1 (load_training_data_nothing_to_load no_files sample_store
                    None (Some []) H1) H2).
  - split; [exact H3|].
    exact (proj1 (proj2 (load_training_data_nothing_to_load no_files
                           sample_store (Some "Expenses:Food") (Some []) H1))
             H3).
Defined.

Lemma load_training_data_again_witness :
  load_training_data no_files sample_store TDNone (Some "Expenses:Food")
    (Some sample_entries)
  = Ok (TDList [OTransaction txn_two_postings])
  ∧ load_training_data no_files sample_store
      (TDList [OTransaction txn_two_postings]) (Some "Expenses:Food") None
    = Ok (TDList [OTransaction txn_two_postings]).
Proof.
  assert (H : load_training_data no_files sample_store TDNone
                (Some "Expenses:Food") (Some sample_entries)
              = Ok (TDList [OTransaction txn_two_postings])) by reflexivity.
  split; [exact H|].
  exact (load_training_data_again no_files sample_store _ _ _ _ H).
Defined.

Lemma load_training_data_without_file_witness :
  (∀ filename, TDList sample_entries ≠ TDPath filename)
  ∧ load_training_data no_files sample_store (TDList sample_entries) None
      None
    = load_training_data one_file sample_store (TDList sample_entries) None
        None.
Proof.
  assert (H : ∀ filename, TDList sample_entries ≠ TDPath filename)
    by (intros filename; discriminate).
  split; [exact H|].
  exact (load_training_data_without_file no_files one_file sample_store
           _ None None H).
Defined.

(** ** Field extractors: failure, and the two shapes of input *)

Section ExtractorsMore.

Implicit Types (σ : Store) (data : list Obj).

(** A comprehension raises what one of its elements raises. *)
Lemma comprehension_raises {A B : Type} (f : A → result B) (l : list A) e :
  comprehension f l = Raise e → ∃ d, d ∈ l ∧ f d = Raise e.
Proof.
  induction l as [|d l IH]; [done|]. cbn.
  destruct (f d) as [v|e'] eqn:Hd.
  - destruct (comprehension f l) as [vs|e''] eqn:Hl; [done|].
    cbn. intros [= ->]. destruct IH as (d' & Hin & Hd'); [done|].
    exists d'. split; [by right | done].
  - cbn. intros [= ->]. exists d. split; [left | done].
Qed.

(** When the elements can raise one exception only, a comprehension with an
    element that raises raises that exception. *)
Lemma comprehension_raises_one {A B : Type} (f : A → result B) (l : list A)
    (E : exn) :
  (∀ d e, f d = Raise e → e = E) →
  (∃ d, d ∈ l ∧ f d = Raise E) →
  comprehension f l = Raise E.
Proof.
  intros Hone. induction l as [|d l IH]; intros (d' & Hin & Hd').
  - by apply elem_of_nil in Hin.
  - cbn. destruct (f d) as [v|e] eqn:Hd.
    + apply elem_of_cons in Hin as [->|Hin]; [congruence|].
      rewrite IH by eauto. done.
    + cbn. f_equal. by apply (Hone d).
Qed.

Lemma index_last_raises {A : Type} (l : list A) e :
  index_last l = Raise e ↔ l = [] ∧ e = IndexError.
Proof.
  unfold index_last. destruct (last l) as [x|] eqn:Hl.
  - split; [done|]. intros [-> _]. done.
  - apply last_None in Hl as ->. split; [by intros [= <-] | by intros [_ ->]].
Qed.

Lemma index_first_raises {A : Type} (l : list A) e :
  index_first l = Raise e ↔ l = [] ∧ e = IndexError.
Proof.
  destruct l as [|x l]; cbn.
  - split; [by intros [= <-] | by intros [_ ->]].
  - split; [done | by intros [? _]].
Qed.

Lemma get_posting_account_raises σ d e :
  GetPostingAccount._get_posting_account σ d = Raise e
  ↔ e = IndexError ∧ ∃ t, d = OTransaction t ∧ list_of σ (postings t) = [].
Proof.
  destruct d as [t| | |]; cbn;
    try (split; [done | by intros (_ & ? & ? & _)]).
  destruct (index_last (list_of σ (postings t))) as [p|e'] eqn:Hl; cbn.
  - split; [done|]. intros (-> & t' & [= <-] & Hnil).
    rewrite Hnil in Hl. done.
  - apply index_last_raises in Hl as [Hnil ->].
    split; [intros [= <-]; eauto | by intros [-> _]].
Qed.

Lemma get_reference_posting_account_raises σ d e :
  GetReferencePostingAccount._get_posting_account σ d = Raise e
  ↔ e = IndexError ∧ ∃ t, d = OTransaction t ∧ list_of σ (postings t) = [].
Proof.
  destruct d as [t| | |]; cbn;
    try (split; [done | by intros (_ & ? & ? & _)]).
  destruct (index_first (list_of σ (postings t))) as [p|e'] eqn:Hl; cbn.
  - split; [done|]. intros (-> & t' & [= <-] & Hnil).
    rewrite Hnil in Hl. done.
  - apply index_first_raises in Hl as [Hnil ->].
    split; [intros [= <-]; eauto | by intros [-> _]].
Qed.

End ExtractorsMore.

(** X21: the [transform] of [GetPostingAccount] and of
    [GetReferencePostingAccount] raises exactly when the list holds a
    transaction without postings, and what it raises is [IndexError]; so the
    two fail on the same lists.  An element of any other kind, and a
    [TxnPostingAccount] whatever its transaction, never makes them fail. *)
Theorem posting_account_transform_failure :
  ∀ (σ : Store) (data : list Obj),
    ((∃ t, OTransaction t ∈ data ∧ list_of σ (postings t) = [])
     ↔ GetPostingAccount.transform σ data = Raise IndexError)
    ∧ ((∃ t, OTransaction t ∈ data ∧ list_of σ (postings t) = [])
       ↔ GetReferencePostingAccount.transform σ data = Raise IndexError)
    ∧ (∀ e, GetPostingAccount.transform σ data = Raise e → e = IndexError)
    ∧ (∀ e, GetReferencePostingAccount.transform σ data = Raise e →
         e = IndexError).
Proof.
  intros σ data.
  unfold GetPostingAccount.transform, GetReferencePostingAccount.transform.
  split; [|split; [|split]].
  - split.
    + intros (t & Hin & Hnil). apply comprehension_raises_one.
      * intros d e He. by apply get_posting_account_raises in He as [-> _].
      * exists (OTransaction t). split; [done|].
        apply get_posting_account_raises. eauto.
    + intros Hr. apply comprehension_raises in Hr as (d & Hin & Hd).
      apply get_posting_account_raises in Hd as (_ & t & -> & Hnil). eauto.
  - split.
    + intros (t & Hin & Hnil). apply comprehension_raises_one.
      * intros d e He.
        by apply get_reference_posting_account_raises in He as [-> _].
      * exists (OTransaction t). split; [done|].
        apply get_reference_posting_account_raises. eauto.
    + intros Hr. apply comprehension_raises in Hr as (d & Hin & Hd).
      apply get_reference_posting_account_raises in Hd
        as (_ & t & -> & Hnil). eauto.
  - intros e Hr. apply comprehension_raises in Hr as (d & _ & Hd).
    by apply get_posting_account_raises in Hd as [-> _].
  - intros e Hr. apply comprehension_raises in Hr as (d & _ & Hd).
    by apply get_reference_posting_account_raises in Hd as [-> _].
Qed.

Lemma posting_account_transform_failure_witness :
  (∃ t, OTransaction t ∈ [OTransaction txn_two_postings;
                          OTransaction txn_no_posting]
        ∧ list_of sample_store (postings t) = [])
  ∧ GetPostingAccount.transform sample_store
      [OTransaction txn_two_postings; OTransaction txn_no_posting]
    = Raise IndexError
  ∧ GetReferencePostingAccount.transform sample_store
      [OTransaction txn_two_postings; OTransaction txn_no_posting]
    = Raise IndexError.
Proof.
  assert (H : ∃ t, OTransaction t ∈ [OTransaction txn_two_postings;
                                     OTransaction txn_no_posting]
                   ∧ list_of sample_store (postings t) = []).
  { exists txn_no_posting. split; [|reflexivity]. right. left. }
  pose proof (posting_account_transform_failure sample_store
                [OTransaction txn_two_postings; OTransaction txn_no_posting])
    as (Hlast & Hfirst & _).
  split; [exact H|]. split.
  - exact (proj1 Hlast H).
  - exact (proj1 Hfirst H).
Defined.

(** X22: the two shapes of input agree.  From a [TxnPostingAccount] the
    payee, the narration and the day of the month are those extracted from
    its transaction; when its posting is the last posting of its transaction
    [GetPostingAccount] extracts the same account from both, and when its
    account is the account of the first posting so does
    [GetReferencePostingAccount]. *)
Theorem extractors_on_both_shapes :
  ∀ (σ : Store) (x : TxnPostingAccount),
    GetPayee._get_payee (OTxnPostingAccount x)
    = GetPayee._get_payee (OTransaction (txn x))
    ∧ GetNarration._get_narration (OTxnPostingAccount x)
      = GetNarration._get_narration (OTransaction (txn x))
    ∧ GetDayOfMonth._get_day_of_month (OTxnPostingAccount x)
      = GetDayOfMonth._get_day_of_month (OTransaction (txn x))
    ∧ (last (list_of σ (postings (txn x))) = Some (posting x) →
         GetPostingAccount._get_posting_account σ (OTxnPostingAccount x)
         = GetPostingAccount._get_posting_account σ (OTransaction (txn x)))
    ∧ (∀ first, head (list_of σ (postings (txn x))) = Some first →
         tpa_account x = account first →
         GetReferencePostingAccount._get_posting_account σ
           (OTxnPostingAccount x)
         = GetReferencePostingAccount._get_posting_account σ
             (OTransaction (txn x))).
Proof.
  intros σ x. do 3 (split; [done|]). split.
  - intros Hlast. cbn. unfold index_last. by rewrite Hlast.
  - intros first Hhead Hacc. cbn.
    destruct (list_of σ (postings (txn x))) as [|p ps]; [done|].
    cbn in *. injection Hhead as ->. by rewrite Hacc.
Qed.

Lemma extractors_on_both_shapes_witness :
  (last (list_of sample_store (postings (txn sample_tpa)))
     = Some (posting sample_tpa)
   ∧ GetPostingAccount._get_posting_account sample_store
       (OTxnPostingAccount sample_tpa)
     = GetPostingAccount._get_posting_account sample_store
         (OTransaction (txn sample_tpa)))
  ∧ (head (list_of sample_store (postings (txn sample_tpa))) = Some posting_A
     ∧ tpa_account sample_tpa = account posting_A
     ∧ GetReferencePostingAccount._get_posting_account sample_store
         (OTxnPostingAccount sample_tpa)
       = GetReferencePostingAccount._get_posting_account sample_store
           (OTransaction (txn sample_tpa))).
Proof.
  assert (H1 : last (list_of sample_store (postings (txn sample_tpa)))
               = Some (posting sample_tpa)) by reflexivity.
  assert (H2 : head (list_of sample_store (postings (txn sample_tpa)))
               = Some posting_A) by reflexivity.
  assert (H3 : tpa_account sample_tpa = account posting_A) by reflexivity.
  pose proof (extractors_on_both_shapes sample_store sample_tpa)
    as (_ & _ & _ & Hlast & Hfirst).
  split.
  - split; [exact H1 | exact (Hlast H1)].
  - split; [exact H2|]. split; [exact H3 | exact (Hfirst _ H2 H3)].
Defined.

(** ** The text of the suggestions *)

Section JsonAscii.

Local Open Scope N_scope.








End JsonAscii.

